(** * The rush publish action

    A shallow embedding of [apps/rush/src/actions/PublishAction.ts] and the
    properties of its two workflows (selective release and publish-all), its
    command gate and its registry probe.

    The action is sequential, effectful code: it prints to the console, calls
    collaborators of the repository (change resolver, changelog generator,
    change-file store, registry client) and spawns processes through
    [Utilities.executeCommand].  A run is modelled as the trace of these
    events, in program order, together with the way the run ended. *)

From stdpp Require Import base strings gmap list pretty.
From Stdlib Require Import ZArith Lia.


(** ** JavaScript values and string primitives *)

Module JS.

(** [!!v] for the value of a string parameter: an unset parameter (here
    [None]; the argument parser leaves it [null]) and the empty string are
    falsy. *)
Definition truthy (v : option string) : bool :=
  match v with
  | Some s => negb (String.eqb s "")
  | None => false
  end.

(** String conversion of the value of a string parameter inside a template
    literal or a [+] concatenation: an unset parameter is printed as the
    argument parser leaves it, [null]. *)
Definition str (v : option string) : string :=
  match v with
  | Some s => s
  | None => "null"
  end.

(** [s.split(sep)] for a one-character separator. *)
Fixpoint split (sep : Ascii.ascii) (s : string) : list string :=
  match s with
  | EmptyString => [EmptyString]
  | String c s' =>
      if Ascii.eqb c sep then EmptyString :: split sep s'
      else match split sep s' with
           | h :: t => String c h :: t
           | [] => [String c EmptyString]
           end
  end.

(** [l.join(sep)]. *)
Fixpoint join (sep : string) (l : list string) : string :=
  match l with
  | [] => ""
  | [x] => x
  | x :: l' => x +:+ sep +:+ join sep l'
  end.

(** [s.indexOf(needle)]: -1 when [needle] does not occur. *)
Definition indexOf (s needle : string) : Z :=
  match String.index 0 needle s with
  | Some n => Z.of_nat n
  | None => (-1)%Z
  end.

(** [s.substring(start)]: a negative [start] counts as 0. *)
Definition substring (s : string) (start : Z) : string :=
  let n := Z.to_nat (Z.max 0 start) in
  String.substring n (String.length s - n) s.

(** [l.indexOf(x) >= 0] on an array of strings. *)
Definition includes (l : list string) (x : string) : bool :=
  existsb (String.eqb x) l.

(** Truthiness of a string: only the empty string is falsy. *)
Definition nonempty (s : string) : bool := negb (String.eqb s "").

(** The space character, the separator of every [split] in the action. *)
Definition space : Ascii.ascii := Ascii.ascii_of_nat 32.

(** The double-quote character, as a one-character string. *)
Definition dquote : string := String (Ascii.ascii_of_nat 34) EmptyString.

End JS.

(** ** Data model *)

Module ChangeType.
(** Modelled from the spec: the enum [ChangeType] of rush-lib is not part
    of the sources at hand; the spec lists its members in increasing order
    (none, dependency, patch, minor, major) and the code compares them as
    numbers. *)
Inductive t := none | dependency | patch | minor | major.

Definition value (c : t) : Z :=
  match c with
  | none => 0
  | dependency => 1
  | patch => 2
  | minor => 3
  | major => 4
  end.

(** [a > b] on enum members. *)
Definition gt (a b : t) : bool := (value b <? value a)%Z.
End ChangeType.

(** [IChangeInfo]: the fields the action reads. *)
Record IChangeInfo := {
  ci_packageName : string;
  changeType : ChangeType.t;
  newVersion : string;
}.

(** [RushConfigurationProject]; [version] is [packageJson.version]. *)
Record RushConfigurationProject := {
  packageName : string;
  projectFolder : string;
  shouldPublish : bool;
  version : string;
}.

(** A JavaScript [Map<string, RushConfigurationProject>]: entries in
    insertion order.  [forEach] visits them in that order and [get] returns
    the entry of a key. *)
Definition ProjectMap := list (string * RushConfigurationProject).

Definition Map_get (m : ProjectMap) (key : string)
  : option RushConfigurationProject :=
  snd <$> List.find (fun kv => String.eqb (fst kv) key) m.

Record RushConfiguration := {
  commonFolder : string;
  npmToolFilename : string;
  projectsByName : ProjectMap;
}.

(** Modelled from the spec: the class [PrereleaseToken] is not part of the
    sources at hand; the spec says it is built from (prereleaseName, suffix)
    and that [hasValue] is true iff either is set. *)
Record PrereleaseToken := {
  prereleaseName : option string;
  suffix : option string;
}.

Definition hasValue (t : PrereleaseToken) : bool :=
  JS.truthy (prereleaseName t) || JS.truthy (suffix t).

(** The values of the command-line parameters of one run. *)
Record Parameters := {
  _addCommitDetails : bool;
  _apply : bool;
  _includeAll : bool;
  _npmAuthToken : option string;
  _publish : bool;
  _regenerateChangelogs : bool;
  _registryUrl : option string;
  _targetBranch : option string;
  _prereleaseName : option string;
  _suffix : option string;
  _force : bool;
}.

(** An environment object [{ [key: string]: string }]. *)
Abbreviation Env := (gmap string string).

(** [IChangeInfoHash]. *)
Abbreviation IChangeInfoHash := (gmap string IChangeInfo).

(** ** Events of a run *)

Inductive Event :=
| ConsoleLog (line : string)
    (** [console.log(line)] *)
| ExecuteCommand (command : string) (args : list string)
    (workingDirectory : string) (env : option Env)
    (** [Utilities.executeCommand(command, args, workingDirectory, false, env)] *)
| LoadFromDefaultLocation
    (** [RushConfiguration.loadFromDefaultLocation()] *)
| GitPolicyCheck
    (** [GitPolicy.check(configuration)] *)
| FindChangeRequests (changesPath : string) (includeCommitDetails : bool)
    (token : PrereleaseToken)
    (** [PublishUtilities.findChangeRequests(...)] *)
| UpdatePackages (shouldCommit : bool)
    (** [PublishUtilities.updatePackages(allChanges, allPackages, shouldCommit, token)] *)
| UpdateChangelogs (shouldCommit : bool)
    (** [ChangelogGenerator.updateChangelogs(allChanges, allPackages, shouldCommit)] *)
| DeleteAll (shouldDelete : bool)
    (** [changeFiles.deleteAll(shouldDelete)] *)
| RegenerateChangelogs
    (** [ChangelogGenerator.regenerateChangelogs(allPackages)] *)
| PublishedVersions (name : string) (folder : string) (env : Env).
    (** [Npm.publishedVersions(name, folder, env)] *)

(** How a run, or a part of it, ends. *)
Inductive Error := TypeError | ExternalFailure.

Inductive Outcome (A : Type) :=
| Returned (a : A)
| Thrown (e : Error)
| Exited (code : Z).
Arguments Returned {A} a.
Arguments Thrown {A} e.
Arguments Exited {A} code.

(** ** What the action does not decide

    The operating system, the clock, Node's [path] module and the
    collaborators outside [PublishAction.ts] are inputs of a run. *)
Record World := {
  EOL : string;
  process_cwd : string;
  process_env : Env;
  path_join : string -> string -> string;
  path_relative : string -> string -> string;
  Date_getTime : N;
  colors_green : string -> string;
  loadFromDefaultLocation : RushConfiguration;
  GitPolicy_check : RushConfiguration -> bool;
  findChangeRequests :
    ProjectMap -> string -> bool -> PrereleaseToken -> IChangeInfoHash;
  sortChangeRequests : IChangeInfoHash -> list IChangeInfo;
  createTagname : string -> string -> string;
  Npm_publishedVersions : string -> string -> Env -> list string;
  (** whether an external call returns normally; otherwise it throws *)
  succeeds : Event -> bool;
}.

(** ** The monad of runs: a trace and an outcome *)

Definition M (A : Type) : Type := list Event * Outcome A.

Definition ret {A} (a : A) : M A := ([], Returned a).

Definition bind {A B} (m : M A) (f : A -> M B) : M B :=
  match m with
  | (t, Returned a) => let '(t', o) := f a in (t ++ t', o)
  | (t, Thrown e) => (t, Thrown e)
  | (t, Exited c) => (t, Exited c)
  end.

#[global] Instance M_ret : MRet M := @ret.
#[global] Instance M_bind : MBind M := fun A B f m => bind m f.

Definition trace {A} (m : M A) : list Event := fst m.
Definition outcome {A} (m : M A) : Outcome A := snd m.

(** [console.log]. *)
Definition console_log (line : string) : M unit :=
  ([ConsoleLog line], Returned tt).

(** [throw]. *)
Definition throw {A} (e : Error) : M A := ([], Thrown e).

(** [process.exit(code)]. *)
Definition process_exit {A} (code : Z) : M A := ([], Exited code).

(** A call that leaves [PublishAction.ts]: the call is recorded, and it
    either returns or throws.  Which of the two is decided by the call
    itself, so that identical calls of one run fail alike. *)
Definition external (w : World) (e : Event) : M unit :=
  ([e], if succeeds w e then Returned tt else Thrown ExternalFailure).

(** [for (const x of l) body(x)]. *)
Fixpoint for_of {A} (l : list A) (body : A -> M unit) : M unit :=
  match l with
  | [] => ret tt
  | x :: l' => body x;; for_of l' body
  end.

(** [m.forEach((value, key) => ...)] where the callback updates a local
    variable of the enclosing function, passed along as [s]. *)
Fixpoint Map_forEach {S} (m : ProjectMap) (s : S)
    (callback : RushConfigurationProject -> string -> S -> M S) : M S :=
  match m with
  | [] => ret s
  | (key, value) :: m' =>
      s' ← callback value key s; Map_forEach m' s' callback
  end.

(** Reading a property of [m.get(key)]: a [TypeError] when the key is absent. *)
Definition Map_get_prop {A} (m : ProjectMap) (key : string)
    (prop : RushConfigurationProject -> A) : M A :=
  match Map_get m key with
  | Some p => ret (prop p)
  | None => throw TypeError
  end.

(** ** The methods of [PublishAction]

    [onExecute] assigns the fields [_rushConfiguration] and
    [_prereleaseToken] before it calls any private method; the private
    methods take them, and the parameter values [this], as arguments. *)

Section PublishAction.
Context (w : World) (this : Parameters).
Context (_rushConfiguration : RushConfiguration).

(** [_getEnvArgs]: a fresh object with every entry of [process.env]. *)
Definition _getEnvArgs : Env :=
  map_fold (fun key value (env : Env) => <[key := value]> env) ∅
    (process_env w).

(** [_execCommand], the command gate.  Every caller passes [args]; an
    absent [workingDirectory] defaults to [process.cwd()].  The overlaid
    [envArgs] is built as in the source, which then hands [env] itself to
    [Utilities.executeCommand]. *)
Definition _execCommand (shouldExecute : bool) (command : string)
    (args : list string) (workingDirectory : option string)
    (env : option Env) : M unit :=
  let workingDirectory := default (process_cwd w) workingDirectory in
  let relativeDirectory := path_relative w (process_cwd w) workingDirectory in
  let envArgs : Env := _getEnvArgs in
  let relativeDirectory :=
    if JS.nonempty relativeDirectory
    then "(" +:+ relativeDirectory +:+ ")"
    else relativeDirectory in
  let envArgs : Env :=
    match env with
    | Some env =>
        map_fold (fun name value (e : Env) => <[name := value]> e) envArgs env
    | None => envArgs
    end in
  console_log (EOL w +:+ "* " +:+
               (if shouldExecute then "EXECUTING" else "DRYRUN") +:+ ": " +:+
               command +:+ " " +:+ JS.join " " args +:+ " " +:+
               relativeDirectory);;
  if shouldExecute
  then external w (ExecuteCommand command args workingDirectory env)
  else ret tt.

(** The git helpers.  A branch name is converted to a string where the
    source interpolates it, so the caller passes [JS.str] of a value that
    may be unset. *)
Definition _gitCheckout (branchName : string) (createBranch : bool) : M unit :=
  let params := "checkout " +:+ (if createBranch then "-b " else "") +:+ branchName in
  _execCommand (JS.truthy (_targetBranch this)) "git"
    (JS.split JS.space params) None None.

Definition _gitMerge (branchName : string) : M unit :=
  _execCommand (JS.truthy (_targetBranch this)) "git"
    (JS.split JS.space ("merge " +:+ branchName +:+ " --no-edit")) None None.

Definition _gitDeleteBranch (branchName : string) : M unit :=
  _execCommand (JS.truthy (_targetBranch this)) "git"
    (JS.split JS.space ("branch -d " +:+ branchName)) None None;;
  _execCommand (JS.truthy (_targetBranch this)) "git"
    (JS.split JS.space ("push origin --delete " +:+ branchName)) None None.

Definition _gitPull : M unit :=
  _execCommand (JS.truthy (_targetBranch this)) "git"
    (JS.split JS.space ("pull origin " +:+ JS.str (_targetBranch this)))
    None None.

Definition _gitAddChanges : M unit :=
  _execCommand (JS.truthy (_targetBranch this)) "git" ["add"; "."] None None.

Definition _gitAddTag (packageName packageVersion : string) : M unit :=
  let tagName := createTagname w packageName packageVersion in
  _execCommand
    (JS.truthy (_targetBranch this) && _publish this
     && negb (JS.truthy (_registryUrl this)))
    "git"
    ["tag"; "-a"; tagName; "-m";
     JS.dquote +:+ packageName +:+ " v" +:+ packageVersion +:+ JS.dquote]
    None None.

(** The body of the loop of [_gitAddTags], for one change. *)
Definition tagLoopBody (change : IChangeInfo) : M unit :=
  if ChangeType.gt (changeType change) ChangeType.dependency
  then
    publishable ← Map_get_prop (projectsByName _rushConfiguration)
                    (ci_packageName change) shouldPublish;
    if (publishable : bool)
    then _gitAddTag (ci_packageName change) (newVersion change)
    else ret tt
  else ret tt.

Definition _gitAddTags (orderedChanges : list IChangeInfo) : M unit :=
  for_of orderedChanges tagLoopBody.

Definition _gitCommit : M unit :=
  _execCommand (JS.truthy (_targetBranch this)) "git"
    ["commit"; "-m";
     JS.dquote +:+ "Applying package updates." +:+ JS.dquote]
    None None.

Definition _gitPush (branchName : string) : M unit :=
  _execCommand (JS.truthy (_targetBranch this)) "git"
    ["push"; "origin"; "HEAD:" +:+ branchName; "--follow-tags"; "--verbose"]
    None None.

Definition _npmPublish (packageName packagePath : string) : M unit :=
  let env : Env := _getEnvArgs in
  let args : list string := ["publish"] in
  publishable ← Map_get_prop (projectsByName _rushConfiguration)
                  packageName shouldPublish;
  if (publishable : bool) then
    let registry := "//registry.npmjs.org/" in
    let '(env, registry) :=
      if JS.truthy (_registryUrl this) then
        let registryUrl := JS.str (_registryUrl this) in
        (<["npm_config_registry" := registryUrl]> env,
         JS.substring registryUrl (JS.indexOf registryUrl "//"))
      else (env, registry) in
    let args :=
      if JS.truthy (_npmAuthToken this)
      then args ++ ["--" +:+ registry +:+ ":_authToken=" +:+
                    JS.str (_npmAuthToken this)]
      else args in
    let args := if _force this then args ++ ["--force"] else args in
    _execCommand (_publish this) (npmToolFilename _rushConfiguration)
      args (Some packagePath) (Some env)
  else ret tt.

(** [_packageExists], the registry probe. *)
Definition _packageExists (packageConfig : RushConfigurationProject) : M bool :=
  let env : Env := _getEnvArgs in
  let env :=
    if JS.truthy (_registryUrl this)
    then <["npm_config_registry" := JS.str (_registryUrl this)]> env
    else env in
  external w (PublishedVersions (packageName packageConfig)
                (projectFolder packageConfig) env);;
  let publishedVersions :=
    Npm_publishedVersions w (packageName packageConfig)
      (projectFolder packageConfig) env in
  ret (JS.includes publishedVersions (version packageConfig)).

(** The body of the publish loop of [_publishChanges], for one change. *)
Definition publishLoopBody (allPackages : ProjectMap) (change : IChangeInfo)
  : M unit :=
  if ChangeType.gt (changeType change) ChangeType.dependency
  then
    folder ← Map_get_prop allPackages (ci_packageName change) projectFolder;
    _npmPublish (ci_packageName change) folder
  else ret tt.

(** The callback [_publishAll] hands to [forEach]; the local [updated] of
    [_publishAll], which the callback assigns, is passed in and out. *)
Definition publishAllCallback (packageConfig : RushConfigurationProject)
    (packageName : string) (updated : bool) : M bool :=
  if shouldPublish packageConfig then
    needed ← (if _force this then ret true
              else published ← _packageExists packageConfig;
                   ret (negb published));
    if (needed : bool) then
      _npmPublish packageName (projectFolder packageConfig);;
      _gitAddTag packageName (version packageConfig);;
      ret true
    else
      console_log ("Skip " +:+ packageName +:+ ". Not updated.");;
      ret updated
  else ret updated.

(** [_publishAll], the publish-all workflow. *)
Definition _publishAll (allPackages : ProjectMap) : M unit :=
  updated ← Map_forEach allPackages false publishAllCallback;
  if (updated : bool) then _gitPush (JS.str (_targetBranch this)) else ret tt.

Context (_prereleaseToken : PrereleaseToken).

(** [_publishChanges], the selective workflow. *)
Definition _publishChanges (allPackages : ProjectMap) : M unit :=
  let changesPath := path_join w (commonFolder _rushConfiguration) "changes" in
  external w (FindChangeRequests changesPath (_addCommitDetails this)
                _prereleaseToken);;
  let allChanges :=
    findChangeRequests w allPackages changesPath (_addCommitDetails this)
      _prereleaseToken in
  let orderedChanges := sortChangeRequests w allChanges in
  if bool_decide (0 < length orderedChanges) then
    let tempBranch := "publish-" +:+ pretty (Date_getTime w) in
    _gitCheckout tempBranch true;;
    external w (UpdatePackages (_apply this));;
    (if negb (hasValue _prereleaseToken) then
       external w (UpdateChangelogs (_apply this));;
       external w (DeleteAll (_apply this || JS.truthy (_targetBranch this)))
     else ret tt);;
    _gitAddChanges;;
    _gitCommit;;
    _gitPush tempBranch;;
    for_of orderedChanges (publishLoopBody allPackages);;
    _gitAddTags orderedChanges;;
    _gitPush tempBranch;;
    _gitCheckout (JS.str (_targetBranch this)) false;;
    _gitPull;;
    _gitMerge tempBranch;;
    _gitPush (JS.str (_targetBranch this));;
    _gitDeleteBranch tempBranch
  else ret tt.

End PublishAction.

(** [onExecute], the entry point of the action. *)
Definition onExecute (w : World) (this : Parameters) : M unit :=
  console_log ("Starting " +:+ JS.dquote +:+ "rush publish" +:+ JS.dquote
               +:+ " " +:+ EOL w);;
  external w LoadFromDefaultLocation;;
  let _rushConfiguration := loadFromDefaultLocation w in
  external w GitPolicyCheck;;
  if negb (GitPolicy_check w _rushConfiguration) then process_exit 1
  else
    let allPackages := projectsByName _rushConfiguration in
    if _regenerateChangelogs this then
      console_log "Regenerating changelogs";;
      external w RegenerateChangelogs
    else
      (if _includeAll this && _publish this then
         _publishAll w this _rushConfiguration allPackages
       else
         let _prereleaseToken :=
           {| prereleaseName := _prereleaseName this;
              suffix := _suffix this |} in
         _publishChanges w this _rushConfiguration _prereleaseToken allPackages);;
      console_log (EOL w +:+ colors_green w "Rush publish finished successfully.").

(** ** Observations on traces *)

Definition is_execute (e : Event) : bool :=
  match e with ExecuteCommand _ _ _ _ => true | _ => false end.

(** The processes a run spawned, in order. *)
Definition executed (t : list Event) : list Event :=
  List.filter is_execute t.

(** The lines a run printed, in order. *)
Definition console_lines (t : list Event) : list string :=
  omap (fun e => match e with ConsoleLog l => Some l | _ => None end) t.

(** Every external call of the run returns normally. *)
Definition all_succeed (w : World) : Prop := forall e, succeeds w e = true.

(** The line [_execCommand] prints. *)
Definition gate_line (w : World) (shouldExecute : bool) (command : string)
    (args : list string) (workingDirectory : option string) : string :=
  let relativeDirectory :=
    path_relative w (process_cwd w) (default (process_cwd w) workingDirectory) in
  EOL w +:+ "* " +:+ (if shouldExecute then "EXECUTING" else "DRYRUN") +:+ ": "
  +:+ command +:+ " " +:+ JS.join " " args +:+ " "
  +:+ (if JS.nonempty relativeDirectory
       then "(" +:+ relativeDirectory +:+ ")" else "").

(** The events of one call of [_execCommand]: the line, then the process
    when the gate is open. *)
Definition gate (w : World) (shouldExecute : bool) (command : string)
    (args : list string) (workingDirectory : option string)
    (env : option Env) : list Event :=
  ConsoleLog (gate_line w shouldExecute command args workingDirectory)
  :: (if shouldExecute
      then [ExecuteCommand command args
              (default (process_cwd w) workingDirectory) env]
      else []).

(** The environment and the arguments [_npmPublish] hands to the gate. *)
Definition npmPublish_env (w : World) (this : Parameters) : Env :=
  if JS.truthy (_registryUrl this)
  then <["npm_config_registry" := JS.str (_registryUrl this)]> (process_env w)
  else process_env w.

Definition npmPublish_registry (this : Parameters) : string :=
  if JS.truthy (_registryUrl this)
  then JS.substring (JS.str (_registryUrl this))
         (JS.indexOf (JS.str (_registryUrl this)) "//")
  else "//registry.npmjs.org/".

Definition npmPublish_args (this : Parameters) : list string :=
  ["publish"]
  ++ (if JS.truthy (_npmAuthToken this)
      then ["--" +:+ npmPublish_registry this +:+ ":_authToken=" +:+
            JS.str (_npmAuthToken this)]
      else [])
  ++ (if _force this then ["--force"] else []).

(** The arguments of the tag command of [_gitAddTag]. *)
Definition gitTag_args (w : World) (packageName packageVersion : string)
  : list string :=
  ["tag"; "-a"; createTagname w packageName packageVersion; "-m";
   JS.dquote +:+ packageName +:+ " v" +:+ packageVersion +:+ JS.dquote].

(** The arguments of the push command of [_gitPush]. *)
Definition gitPush_args (branchName : string) : list string :=
  ["push"; "origin"; "HEAD:" +:+ branchName; "--follow-tags"; "--verbose"].

(** The gate of the tag command. *)
Definition tag_gate (this : Parameters) : bool :=
  JS.truthy (_targetBranch this) && _publish this
  && negb (JS.truthy (_registryUrl this)).

(** [runs m t a]: [m] prints and calls [t] and returns [a]. *)
Definition runs {A} (m : M A) (t : list Event) (a : A) : Prop :=
  m = (t, Returned a).

(** ** What the specification says, in its own words *)

(** The line as the specification words it:
    [EXECUTING: <command> <args> (<relativeWorkingDir>)], with [DRYRUN] in
    place of [EXECUTING] when the gate is closed. *)
Definition described_gate_line (shouldRun : bool) (command : string)
    (args : list string) (relativeWorkingDir : string) : string :=
  (if shouldRun then "EXECUTING" else "DRYRUN") +:+ ": " +:+ command +:+ " "
  +:+ JS.join " " args +:+ " (" +:+ relativeWorkingDir +:+ ")".

(** ** Sample runs

    A small repository: [pkgA] is published, [pkgB] is private; the pending
    changes are a minor change of [pkgA] and a dependency update of [pkgB];
    the registry already lists version 1.0.0 of every package. *)

Module Sample.

Definition pkgA : RushConfigurationProject :=
  {| packageName := "pkgA"; projectFolder := "/repo/a";
     shouldPublish := true; version := "1.0.0" |}.

Definition pkgB : RushConfigurationProject :=
  {| packageName := "pkgB"; projectFolder := "/repo/b";
     shouldPublish := false; version := "1.0.0" |}.

Definition pkgC : RushConfigurationProject :=
  {| packageName := "pkgC"; projectFolder := "/repo/c";
     shouldPublish := true; version := "2.0.0" |}.

Definition configuration : RushConfiguration :=
  {| commonFolder := "/repo/common";
     npmToolFilename := "npm";
     projectsByName := [("pkgA", pkgA); ("pkgB", pkgB); ("pkgC", pkgC)] |}.

Definition changeA : IChangeInfo :=
  {| ci_packageName := "pkgA"; changeType := ChangeType.minor;
     newVersion := "1.1.0" |}.

Definition changeB : IChangeInfo :=
  {| ci_packageName := "pkgB"; changeType := ChangeType.dependency;
     newVersion := "1.0.1" |}.

(** [path.relative] for a directory below, or equal to, the current one. *)
Definition relative (from to : string) : string :=
  if String.eqb from to then ""
  else if String.prefix (from +:+ "/") to
       then String.substring (String.length from + 1) (String.length to) to
       else to.

Definition world (changes : list IChangeInfo) (policy : bool) : World :=
  {| EOL := String (Ascii.ascii_of_nat 10) EmptyString;
     process_cwd := "/repo";
     process_env := {[ "PATH" := "/usr/bin" ]};
     path_join := fun a b => a +:+ "/" +:+ b;
     path_relative := relative;
     Date_getTime := 1500000000000%N;
     colors_green := fun s => s;
     loadFromDefaultLocation := configuration;
     GitPolicy_check := fun _ => policy;
     findChangeRequests := fun _ _ _ _ =>
       list_to_map ((fun c => (ci_packageName c, c)) <$> changes);
     sortChangeRequests := fun _ => changes;
     createTagname := fun n v => n +:+ "_v" +:+ v;
     Npm_publishedVersions := fun _ _ _ => ["1.0.0"];
     succeeds := fun _ => true |}.

Definition w0 : World := world [changeA; changeB] true.

Definition no_flags : Parameters :=
  {| _addCommitDetails := false; _apply := false; _includeAll := false;
     _npmAuthToken := None; _publish := false;
     _regenerateChangelogs := false; _registryUrl := None;
     _targetBranch := None; _prereleaseName := None; _suffix := None;
     _force := false |}.

Definition all_flags : Parameters :=
  {| _addCommitDetails := false; _apply := true; _includeAll := false;
     _npmAuthToken := Some "secret"; _publish := true;
     _regenerateChangelogs := false; _registryUrl := None;
     _targetBranch := Some "main"; _prereleaseName := None; _suffix := None;
     _force := false |}.

Definition no_token : PrereleaseToken :=
  {| prereleaseName := None; suffix := None |}.

End Sample.

(** ** The selective workflow, event by event *)

(** The changes the resolver hands to [_publishChanges], in its order. *)
Definition resolvedChanges (w : World) (this : Parameters)
    (cfg : RushConfiguration) (tok : PrereleaseToken)
    (allPackages : ProjectMap) : list IChangeInfo :=
  sortChangeRequests w
    (findChangeRequests w allPackages
       (path_join w (commonFolder cfg) "changes") (_addCommitDetails this) tok).

(** The name of the temporary branch. *)
Definition tempBranchName (w : World) : string :=
  "publish-" +:+ pretty (Date_getTime w).

(** A change above [dependency] names a project of the configuration. *)
Definition resolvable (cfg : RushConfiguration) (change : IChangeInfo) : Prop :=
  ChangeType.gt (changeType change) ChangeType.dependency = true ->
  is_Some (Map_get (projectsByName cfg) (ci_packageName change)).

(** A change above [dependency] of a project with [shouldPublish]. *)
Definition eligible (cfg : RushConfiguration) (change : IChangeInfo) : bool :=
  ChangeType.gt (changeType change) ChangeType.dependency
  && match Map_get (projectsByName cfg) (ci_packageName change) with
     | Some p => shouldPublish p
     | None => false
     end.

(** The folder of the project of a change. *)
Definition folder_of (cfg : RushConfiguration) (change : IChangeInfo)
  : option string :=
  projectFolder <$> Map_get (projectsByName cfg) (ci_packageName change).

(** The events of the publish step and of the tag step of one change. *)
Definition publish_events (w : World) (this : Parameters)
    (cfg : RushConfiguration) (change : IChangeInfo) : list Event :=
  if eligible cfg change
  then gate w (_publish this) (npmToolFilename cfg) (npmPublish_args this)
         (folder_of cfg change) (Some (npmPublish_env w this))
  else [].

Definition tag_events (w : World) (this : Parameters)
    (cfg : RushConfiguration) (change : IChangeInfo) : list Event :=
  if eligible cfg change
  then gate w (tag_gate this) "git"
         (gitTag_args w (ci_packageName change) (newVersion change)) None None
  else [].

(** The events of a whole run of [_publishChanges] in which every external
    call returns. *)
Definition selective_trace (w : World) (this : Parameters)
    (cfg : RushConfiguration) (tok : PrereleaseToken)
    (changes : list IChangeInfo) : list Event :=
  let git := fun args =>
    gate w (JS.truthy (_targetBranch this)) "git" args None None in
  let target := JS.str (_targetBranch this) in
  [FindChangeRequests (path_join w (commonFolder cfg) "changes")
     (_addCommitDetails this) tok]
  ++ match changes with
     | [] => []
     | _ :: _ =>
         git (JS.split JS.space ("checkout -b " +:+ tempBranchName w))
         ++ [UpdatePackages (_apply this)]
         ++ (if hasValue tok then []
             else [UpdateChangelogs (_apply this)]
                  ++ [DeleteAll (_apply this || JS.truthy (_targetBranch this))])
         ++ git ["add"; "."]
         ++ git ["commit"; "-m";
                 JS.dquote +:+ "Applying package updates." +:+ JS.dquote]
         ++ git (gitPush_args (tempBranchName w))
         ++ flat_map (publish_events w this cfg) changes
         ++ flat_map (tag_events w this cfg) changes
         ++ git (gitPush_args (tempBranchName w))
         ++ git (JS.split JS.space ("checkout " +:+ target))
         ++ git (JS.split JS.space ("pull origin " +:+ target))
         ++ git (JS.split JS.space
                   ("merge " +:+ tempBranchName w +:+ " --no-edit"))
         ++ git (gitPush_args target)
         ++ git (JS.split JS.space ("branch -d " +:+ tempBranchName w))
         ++ git (JS.split JS.space
                   ("push origin --delete " +:+ tempBranchName w))
     end.

(** An event that changes files, the git repository or the registry: a
    spawned process, or a collaborator called with its flag set. *)
Definition mutates (e : Event) : bool :=
  match e with
  | ExecuteCommand _ _ _ _ => true
  | UpdatePackages b | UpdateChangelogs b | DeleteAll b => b
  | RegenerateChangelogs => true
  | _ => false
  end.

(** A gated action: what would be run, and where. *)
Record Action := {
  a_command : string;
  a_args : list string;
  a_workingDirectory : option string;
}.

(** The gated actions of the selective workflow as the specification lists
    them: create the temporary branch, stage, commit, push it; publish each
    change above [dependency] whose project has [shouldPublish]; tag each of
    them; push again; check out the target branch, pull, merge, push, and
    delete the temporary branch locally and remotely.  Nothing is planned
    when no change was resolved. *)
Definition planned_actions (w : World) (this : Parameters)
    (cfg : RushConfiguration) (changes : list IChangeInfo) : list Action :=
  let git := fun args =>
    {| a_command := "git"; a_args := args; a_workingDirectory := None |} in
  let target := JS.str (_targetBranch this) in
  match changes with
  | [] => []
  | _ :: _ =>
      [git (JS.split JS.space ("checkout -b " +:+ tempBranchName w));
       git ["add"; "."];
       git ["commit"; "-m";
            JS.dquote +:+ "Applying package updates." +:+ JS.dquote];
       git (gitPush_args (tempBranchName w))]
      ++ ((fun change =>
             {| a_command := npmToolFilename cfg;
                a_args := npmPublish_args this;
                a_workingDirectory := folder_of cfg change |})
          <$> List.filter (eligible cfg) changes)
      ++ ((fun change =>
             git (gitTag_args w (ci_packageName change) (newVersion change)))
          <$> List.filter (eligible cfg) changes)
      ++ [git (gitPush_args (tempBranchName w));
          git (JS.split JS.space ("checkout " +:+ target));
          git (JS.split JS.space ("pull origin " +:+ target));
          git (JS.split JS.space
                 ("merge " +:+ tempBranchName w +:+ " --no-edit"));
          git (gitPush_args target);
          git (JS.split JS.space ("branch -d " +:+ tempBranchName w));
          git (JS.split JS.space
                 ("push origin --delete " +:+ tempBranchName w))]
  end.

(** The line of a planned action that is only logged. *)
Definition dryrun_line (w : World) (a : Action) : string :=
  gate_line w false (a_command a) (a_args a) (a_workingDirectory a).

(** The changelog update and the deletion of the change files. *)
Definition is_changelog_step (e : Event) : bool :=
  match e with
  | UpdateChangelogs _ | DeleteAll _ => true
  | _ => false
  end.

(** ** The publish-all workflow, event by event *)

(** The published versions the registry reports for a project. *)
Definition registry_versions (w : World) (this : Parameters)
    (p : RushConfigurationProject) : list string :=
  Npm_publishedVersions w (packageName p) (projectFolder p)
    (npmPublish_env w this).

(** Publish-all publishes a project that has [shouldPublish] when [--force]
    is set or its version is not among the published ones. *)
Definition needs_publish (w : World) (this : Parameters)
    (p : RushConfigurationProject) : bool :=
  _force this || negb (JS.includes (registry_versions w this p) (version p)).

Definition to_publish (w : World) (this : Parameters)
    (entry : string * RushConfigurationProject) : bool :=
  shouldPublish entry.2 && needs_publish w this entry.2.

(** The events of one project in the scan of publish-all. *)
Definition publishAll_events (w : World) (this : Parameters)
    (cfg : RushConfiguration) (entry : string * RushConfigurationProject)
  : list Event :=
  let name := entry.1 in
  let p := entry.2 in
  if shouldPublish p then
    (if _force this then []
     else [PublishedVersions (packageName p) (projectFolder p)
             (npmPublish_env w this)])
    ++ (if needs_publish w this p then
          gate w (_publish this) (npmToolFilename cfg) (npmPublish_args this)
            (Some (projectFolder p)) (Some (npmPublish_env w this))
          ++ gate w (tag_gate this) "git" (gitTag_args w name (version p))
               None None
        else [ConsoleLog ("Skip " +:+ name +:+ ". Not updated.")])
  else [].

(** The push that ends publish-all. *)
Definition publishAll_push (w : World) (this : Parameters) : list Event :=
  gate w (JS.truthy (_targetBranch this)) "git"
    (gitPush_args (JS.str (_targetBranch this))) None None.

(** The process publish-all spawns to publish a project. *)
Definition npm_publish_command (w : World) (this : Parameters)
    (cfg : RushConfiguration) (entry : string * RushConfigurationProject)
  : Event :=
  ExecuteCommand (npmToolFilename cfg) (npmPublish_args this)
    (projectFolder entry.2) (Some (npmPublish_env w this)).

(** The lines of one project in a publish-all run with [--publish] and
    without target branch: the publish is executed, the tag only logged. *)
Definition publishAll_lines_without_branch (w : World) (this : Parameters)
    (cfg : RushConfiguration) (entry : string * RushConfigurationProject)
  : list string :=
  if shouldPublish entry.2 then
    if needs_publish w this entry.2 then
      [gate_line w true (npmToolFilename cfg) (npmPublish_args this)
         (Some (projectFolder entry.2));
       gate_line w false "git" (gitTag_args w entry.1 (version entry.2)) None]
    else ["Skip " +:+ entry.1 +:+ ". Not updated."]
  else [].

(** ** The entry point, step by step *)

(** The call of the change resolver, the first action of the selective
    workflow. *)
Definition is_resolve (e : Event) : bool :=
  match e with FindChangeRequests _ _ _ => true | _ => false end.

(** The first line of every run. *)
Definition starting_line (w : World) : string :=
  "Starting " +:+ JS.dquote +:+ "rush publish" +:+ JS.dquote +:+ " " +:+ EOL w.

(** The last line of a run that ends normally after a workflow. *)
Definition finished_line (w : World) : string :=
  EOL w +:+ colors_green w "Rush publish finished successfully.".

(** What [onExecute] does up to and including the policy check. *)
Definition startup (w : World) : M unit :=
  console_log (starting_line w);;
  external w LoadFromDefaultLocation;;
  external w GitPolicyCheck.

(** The prerelease token [onExecute] builds for the selective workflow. *)
Definition token_of (this : Parameters) : PrereleaseToken :=
  {| prereleaseName := _prereleaseName this; suffix := _suffix this |}.

(** ** Further observations *)

(** [s] contains the character [c]. *)
Fixpoint has_char (c : Ascii.ascii) (s : string) : bool :=
  match s with
  | EmptyString => false
  | String c' s' => Ascii.eqb c' c || has_char c s'
  end.

(** A run that throws [e] after the events [t]. *)
Definition throws {A} (m : M A) (t : list Event) (e : Error) : Prop :=
  m = (t, Thrown e).

(** The parenthesised working directory of a command run in the current
    directory, as [_execCommand] prints it. *)
Definition cwd_suffix (w : World) : string :=
  let rel := path_relative w (process_cwd w) (process_cwd w) in
  if JS.nonempty rel then "(" +:+ rel +:+ ")" else "".

(** A git process: run in the current directory, without environment. *)
Definition git_command (w : World) (args : list string) : Event :=
  ExecuteCommand "git" args (process_cwd w) None.

(** The call of the registry client. *)
Definition is_probe (e : Event) : bool :=
  match e with PublishedVersions _ _ _ => true | _ => false end.

(** What a process spawned by the selective workflow can be: a git command
    in the current directory without environment, which needs the target
    branch, or the registry publish with the arguments and environment of
    [_npmPublish], which needs [--publish]. *)
Definition selective_process (w : World) (this : Parameters)
    (cfg : RushConfiguration) (e : Event) : Prop :=
  match e with
  | ExecuteCommand command args dir env =>
      (JS.truthy (_targetBranch this) = true /\ e = git_command w args)
      \/ (_publish this = true
          /\ e = ExecuteCommand (npmToolFilename cfg) (npmPublish_args this)
                   dir (Some (npmPublish_env w this)))
  | _ => True
  end.

(** What an event of publish-all can be: a line, a registry probe, the
    registry publish, a git tag or the final git push. *)
Definition publishAll_event (w : World) (this : Parameters)
    (cfg : RushConfiguration) (e : Event) : Prop :=
  match e with
  | ConsoleLog _ => True
  | PublishedVersions _ _ env => env = npmPublish_env w this
  | ExecuteCommand command args dir env =>
      (_publish this = true
       /\ e = ExecuteCommand (npmToolFilename cfg) (npmPublish_args this)
                dir (Some (npmPublish_env w this)))
      \/ (tag_gate this = true
          /\ exists name ver, e = git_command w (gitTag_args w name ver))
      \/ (JS.truthy (_targetBranch this) = true
          /\ e = git_command w (gitPush_args (JS.str (_targetBranch this))))
  | _ => False
  end.

(** ** Runs in which external calls may fail *)

(** Printing a line cannot fail; any other event is an external call. *)
Definition event_ok (w : World) (e : Event) : bool :=
  match e with
  | ConsoleLog _ => true
  | _ => succeeds w e
  end.

(** The events of [t] up to and including the first external call that
    fails. *)
Fixpoint until_failure (w : World) (t : list Event) : list Event :=
  match t with
  | [] => []
  | e :: t' => e :: (if event_ok w e then until_failure w t' else [])
  end.

(** [plays w m t a]: [m] goes through the events [t] in order, stops at the
    first external call that fails, where it throws, and otherwise returns
    [a]. *)
Definition plays {A} (w : World) (m : M A) (t : list Event) (a : A) : Prop :=
  m = (until_failure w t,
       if forallb (event_ok w) t then Returned a else Thrown ExternalFailure).

(** The events of a run of the selective workflow, with at least one change
    and every external call returning, up to the publish loop; [rest] is
    what follows. *)
Definition selective_before_publish (w : World) (this : Parameters)
    (cfg : RushConfiguration) (tok : PrereleaseToken) (rest : list Event)
  : list Event :=
  let git := fun args =>
    gate w (JS.truthy (_targetBranch this)) "git" args None None in
  [FindChangeRequests (path_join w (commonFolder cfg) "changes")
     (_addCommitDetails this) tok]
  ++ git (JS.split JS.space ("checkout -b " +:+ tempBranchName w))
  ++ [UpdatePackages (_apply this)]
  ++ (if hasValue tok then []
      else [UpdateChangelogs (_apply this)]
           ++ [DeleteAll (_apply this || JS.truthy (_targetBranch this))])
  ++ git ["add"; "."]
  ++ git ["commit"; "-m";
          JS.dquote +:+ "Applying package updates." +:+ JS.dquote]
  ++ git (gitPush_args (tempBranchName w))
  ++ rest.

(** The registry publish and the git tag of a change, as processes. *)
Definition change_publish_command (w : World) (this : Parameters)
    (cfg : RushConfiguration) (change : IChangeInfo) : Event :=
  ExecuteCommand (npmToolFilename cfg) (npmPublish_args this)
    (default (process_cwd w) (folder_of cfg change))
    (Some (npmPublish_env w this)).

Definition change_tag_command (w : World) (change : IChangeInfo) : Event :=
  git_command w (gitTag_args w (ci_packageName change) (newVersion change)).

(** The git commands of the selective workflow before the publish loop and
    after the tag loop. *)
Definition git_commands_before (w : World) : list Event :=
  git_command w
  <$> [JS.split JS.space ("checkout -b " +:+ tempBranchName w);
       ["add"; "."];
       ["commit"; "-m";
        JS.dquote +:+ "Applying package updates." +:+ JS.dquote];
       gitPush_args (tempBranchName w)].

Definition git_commands_after (w : World) (this : Parameters) : list Event :=
  let target := JS.str (_targetBranch this) in
  git_command w
  <$> [gitPush_args (tempBranchName w);
       JS.split JS.space ("checkout " +:+ target);
       JS.split JS.space ("pull origin " +:+ target);
       JS.split JS.space ("merge " +:+ tempBranchName w +:+ " --no-edit");
       gitPush_args target;
       JS.split JS.space ("branch -d " +:+ tempBranchName w);
       JS.split JS.space ("push origin --delete " +:+ tempBranchName w)].

(** The events of a complete run of publish-all. *)
Definition publishAll_trace (w : World) (this : Parameters)
    (cfg : RushConfiguration) : list Event :=
  flat_map (publishAll_events w this cfg) (projectsByName cfg)
  ++ (if existsb (to_publish w this) (projectsByName cfg)
      then publishAll_push w this else []).

(** A part of a run that never ends the process. *)
Definition never_exits {A} (m : M A) : Prop :=
  forall code, outcome m <> Exited code.

(** The events of [onExecute] up to and including the policy check. *)
Definition startup_trace (w : World) : list Event :=
  [ConsoleLog (starting_line w); LoadFromDefaultLocation; GitPolicyCheck].

(** The slash character. *)
Definition slash : Ascii.ascii := Ascii.ascii_of_nat 47.

(** The [--force] argument of the registry publish, when asked for. *)
Definition force_argument (this : Parameters) : list string :=
  if _force this then ["--force"] else [].

(** A call of a collaborator of the repository that reads or writes the
    change files, the manifests or the changelogs. *)
Definition is_file_step (e : Event) : bool :=
  match e with
  | FindChangeRequests _ _ _ | UpdatePackages _ | UpdateChangelogs _
  | DeleteAll _ | RegenerateChangelogs => true
  | _ => false
  end.

(** The events of a complete run of the selective workflow after the tag
    loop: the second push of the temporary branch and the merge into the
    target branch. *)
Definition selective_after_tags (w : World) (this : Parameters) : list Event :=
  let git := fun args =>
    gate w (JS.truthy (_targetBranch this)) "git" args None None in
  let target := JS.str (_targetBranch this) in
  git (gitPush_args (tempBranchName w))
  ++ git (JS.split JS.space ("checkout " +:+ target))
  ++ git (JS.split JS.space ("pull origin " +:+ target))
  ++ git (JS.split JS.space ("merge " +:+ tempBranchName w +:+ " --no-edit"))
  ++ git (gitPush_args target)
  ++ git (JS.split JS.space ("branch -d " +:+ tempBranchName w))
  ++ git (JS.split JS.space ("push origin --delete " +:+ tempBranchName w)).

(** The line [_execCommand] prints for a planned action when its gate is
    [shouldExecute]; [dryrun_line] is the case of a closed gate. *)
Definition action_line (w : World) (shouldExecute : bool) (a : Action)
  : string :=
  gate_line w shouldExecute (a_command a) (a_args a) (a_workingDirectory a).

(** The gates of the planned actions, in plan order, for [n] changes to
    publish: the target branch for the four git steps before the publish
    loop, [--publish] for each publish, the tag gate for each tag, the
    target branch for the seven git steps of the merge. *)
Definition planned_gates (this : Parameters) (n : nat) : list bool :=
  replicate 4 (JS.truthy (_targetBranch this))
  ++ replicate n (_publish this)
  ++ replicate n (tag_gate this)
  ++ replicate 7 (JS.truthy (_targetBranch this)).

(** * Properties *)

Lemma sample_all_succeed changes policy :
  all_succeed (Sample.world changes policy).
Proof. intros e. reflexivity. Defined.

(** ** The monad: how runs compose *)

Lemma runs_ret {A} (a : A) : runs (ret a) [] a.
Proof. reflexivity. Qed.

Lemma runs_bind {A B} (m : M A) (f : A -> M B) t a t' b :
  runs m t a -> runs (f a) t' b -> runs (m ≫= f) (t ++ t') b.
Proof.
  unfold runs, mbind, M_bind, bind. intros -> Hf. by rewrite Hf.
Qed.

Lemma runs_console_log line : runs (console_log line) [ConsoleLog line] tt.
Proof. reflexivity. Qed.

Lemma runs_external w e : succeeds w e = true -> runs (external w e) [e] tt.
Proof. unfold runs, external. by intros ->. Qed.

Lemma runs_Map_get_prop {A} (m : ProjectMap) key (prop : _ -> A) p :
  Map_get m key = Some p -> runs (Map_get_prop m key prop) [] (prop p).
Proof. unfold Map_get_prop. by intros ->. Qed.

Lemma runs_trace {A} (m : M A) t a : runs m t a -> trace m = t.
Proof. by intros ->. Qed.

Lemma runs_outcome {A} (m : M A) t a : runs m t a -> outcome m = Returned a.
Proof. by intros ->. Qed.

Lemma trace_bind_returned {A B} (m : M A) (f : A -> M B) a :
  outcome m = Returned a -> trace (m ≫= f) = trace m ++ trace (f a).
Proof.
  destruct m as [t o]. simpl. intros ->.
  unfold mbind, M_bind, bind. by destruct (f a).
Qed.

(** A property of every event of [m] and of every continuation holds of
    every event of the sequence, however the run ends. *)
Lemma trace_bind_Forall {A B} (P : Event -> Prop) (m : M A) (f : A -> M B) :
  Forall P (trace m) -> (forall a, Forall P (trace (f a))) ->
  Forall P (trace (m ≫= f)).
Proof.
  destruct m as [t [a|e|c]]; simpl; intros Ht Hf; try done.
  unfold mbind, M_bind, bind. specialize (Hf a). destruct (f a) as [t' o].
  simpl in *. by apply Forall_app.
Qed.

Lemma trace_for_of_Forall {A} (P : Event -> Prop) (l : list A) body :
  (forall x, Forall P (trace (body x))) -> Forall P (trace (for_of l body)).
Proof.
  intros Hb. induction l as [|x l IH]; simpl; [constructor|].
  by apply trace_bind_Forall.
Qed.

Lemma runs_for_of {A} (l : list A) (body : A -> M unit) (tr : A -> list Event) :
  (forall x, x ∈ l -> runs (body x) (tr x) tt) ->
  runs (for_of l body) (flat_map tr l) tt.
Proof.
  induction l as [|x l IH]; intros Hb; simpl; [reflexivity|].
  eapply runs_bind; [apply Hb; left | apply IH].
  intros y Hy. apply Hb. by right.
Qed.

(** ** The command gate and the helpers built on it *)

Section Helpers.
Context (w : World) (this : Parameters) (cfg : RushConfiguration).

Lemma getEnvArgs_eq : _getEnvArgs w = process_env w.
Proof.
  unfold _getEnvArgs.
  apply (map_fold_weak_ind (fun (r m : Env) => r = m)); [done|].
  by intros i x m r _ ->.
Qed.

Lemma execCommand_eq sh command args wd env :
  _execCommand w sh command args wd env
  = (console_log (gate_line w sh command args wd);;
     if sh
     then external w (ExecuteCommand command args
                        (default (process_cwd w) wd) env)
     else ret tt).
Proof.
  unfold _execCommand, gate_line, JS.nonempty.
  destruct (String.eqb_spec
              (path_relative w (process_cwd w) (default (process_cwd w) wd)) "")
    as [->|_]; reflexivity.
Qed.

Lemma execCommand_trace sh command args wd env :
  trace (_execCommand w sh command args wd env) = gate w sh command args wd env.
Proof. rewrite execCommand_eq. by destruct sh. Qed.

Lemma execCommand_runs sh command args wd env :
  all_succeed w ->
  runs (_execCommand w sh command args wd env) (gate w sh command args wd env) tt.
Proof.
  intros Hok. rewrite execCommand_eq. unfold gate.
  destruct sh.
  - eapply (runs_bind _ _ [_] tt [_]); [apply runs_console_log|].
    apply runs_external, Hok.
  - reflexivity.
Qed.

Lemma gitAddTag_trace name ver :
  trace (_gitAddTag w this name ver)
  = gate w (tag_gate this) "git" (gitTag_args w name ver) None None.
Proof. apply execCommand_trace. Qed.

Lemma gitPush_trace branch :
  trace (_gitPush w this branch)
  = gate w (JS.truthy (_targetBranch this)) "git" (gitPush_args branch)
      None None.
Proof. apply execCommand_trace. Qed.

Lemma npmPublish_eq name path p :
  Map_get (projectsByName cfg) name = Some p ->
  _npmPublish w this cfg name path
  = if shouldPublish p
    then _execCommand w (_publish this) (npmToolFilename cfg)
           (npmPublish_args this) (Some path) (Some (npmPublish_env w this))
    else ret tt.
Proof.
  intros Hp. unfold _npmPublish, Map_get_prop. rewrite Hp. simpl.
  unfold mbind, M_bind, bind, ret. simpl.
  destruct (shouldPublish p); [|done].
  unfold npmPublish_args, npmPublish_env, npmPublish_registry.
  rewrite getEnvArgs_eq.
  destruct (JS.truthy (_registryUrl this)),
    (JS.truthy (_npmAuthToken this)), (_force this); simpl;
    by destruct (_execCommand _ _ _ _ _ _).
Qed.

End Helpers.

(** ** The command gate *)

Lemma String_length_append (a b : string) :
  String.length (a +:+ b) = String.length a + String.length b.
Proof. induction a as [|c a IH]; simpl; [done | by rewrite IH]. Qed.

(** The line printed for a command run in the current directory carries no
    parenthesised directory: it is not the line the specification describes,
    whatever decoration precedes it. *)
Lemma execCommand_line_cwd_not_described :
  console_lines
    (trace (_execCommand Sample.w0 true "git" ["add"; "."] None None))
  = [EOL Sample.w0 +:+ "* EXECUTING: git add . "]
  /\ ~ exists decoration,
       console_lines
         (trace (_execCommand Sample.w0 true "git" ["add"; "."] None None))
       = [decoration +:+
          described_gate_line true "git" ["add"; "."]
            (path_relative Sample.w0 (process_cwd Sample.w0)
               (process_cwd Sample.w0))].
Proof.
  split; [reflexivity|].
  intros [d Hd]. vm_compute in Hd.
  destruct d as [|c1 [|c2 d]]; try discriminate Hd.
  apply (f_equal (fun l => String.length <$> l)) in Hd.
  simpl in Hd. rewrite String_length_append in Hd. simpl in Hd.
  injection Hd as Hd. lia.
Qed.

(** C3 (amended): every call of the gate prints exactly one line,
    [<EOL>* EXECUTING: <command> <args> ] when [shouldExecute] holds and the
    same with [DRYRUN] otherwise, followed by [(<relativeWorkingDir>)] only
    when the relative working directory is not empty; in that case the line
    ends with the line the specification describes.  The line is printed
    whatever [shouldExecute] is; the process is started, once, in the given
    working directory, if and only if [shouldExecute] holds. *)
Theorem execCommand_prints_always_spawns_iff
    (w : World) (shouldExecute : bool) (command : string)
    (args : list string) (workingDirectory : option string)
    (env : option Env) :
  let run := _execCommand w shouldExecute command args workingDirectory env in
  let dir := default (process_cwd w) workingDirectory in
  let rel := path_relative w (process_cwd w) dir in
  console_lines (trace run)
    = [EOL w +:+ "* " +:+ (if shouldExecute then "EXECUTING" else "DRYRUN")
       +:+ ": " +:+ command +:+ " " +:+ JS.join " " args +:+ " "
       +:+ (if JS.nonempty rel then "(" +:+ rel +:+ ")" else "")]
  /\ (JS.nonempty rel = true ->
      console_lines (trace run)
      = [EOL w +:+ "* " +:+ described_gate_line shouldExecute command args rel])
  /\ executed (trace run)
     = (if shouldExecute then [ExecuteCommand command args dir env] else [])
  /\ (ExecuteCommand command args dir env ∈ trace run <-> shouldExecute = true).
Proof.
  intros run dir rel. subst run.
  rewrite execCommand_trace. unfold gate, gate_line. fold dir. fold rel.
  split; [by destruct shouldExecute|].
  split.
  { intros ->. unfold described_gate_line. by destruct shouldExecute. }
  split; [by destruct shouldExecute|].
  destruct shouldExecute; split; try done.
  - intros _. set_solver.
  - intros H. apply list_elem_of_singleton in H. discriminate H.
Qed.

Lemma execCommand_prints_witness :
  console_lines
    (trace (_execCommand Sample.w0 false "npm" ["publish"] (Some "/repo/a")
              None))
  = [EOL Sample.w0 +:+ "* DRYRUN: npm publish (a)"]
  /\ executed
       (trace (_execCommand Sample.w0 false "npm" ["publish"] (Some "/repo/a")
                 None)) = [].
Proof.
  destruct (execCommand_prints_always_spawns_iff Sample.w0 false "npm"
              ["publish"] (Some "/repo/a") None) as (_ & Hline & Hexec & _).
  split; [exact (Hline eq_refl) | exact Hexec].
Defined.

(** ** Observations compose *)

Lemma console_lines_app t1 t2 :
  console_lines (t1 ++ t2) = console_lines t1 ++ console_lines t2.
Proof. apply omap_app. Qed.

Lemma console_lines_gate w sh command args wd env :
  console_lines (gate w sh command args wd env)
  = [gate_line w sh command args wd].
Proof. by destruct sh. Qed.

Lemma executed_app t1 t2 : executed (t1 ++ t2) = executed t1 ++ executed t2.
Proof. apply List.filter_app. Qed.

Lemma executed_gate w sh command args wd env :
  executed (gate w sh command args wd env)
  = if sh then [ExecuteCommand command args (default (process_cwd w) wd) env]
    else [].
Proof. by destruct sh. Qed.

Lemma executed_nil_of_no_mutation t :
  Forall (fun e => mutates e = false) t -> executed t = [].
Proof.
  induction 1 as [|e t He _ IH]; [done|].
  unfold executed in *. simpl. rewrite IH. by destruct e.
Qed.

Lemma Forall_gate_closed (P : Event -> Prop) w command args wd env :
  (forall line, P (ConsoleLog line)) ->
  Forall P (gate w false command args wd env).
Proof. intros HP. repeat constructor. apply HP. Qed.

Lemma trace_external w e : trace (external w e) = [e].
Proof. reflexivity. Qed.

Lemma trace_Map_get_prop {A} m key (prop : _ -> A) :
  trace (Map_get_prop m key prop) = [].
Proof. unfold Map_get_prop. by destruct (Map_get m key). Qed.

(** Whatever [_npmPublish] does, it does through one call of the gate,
    with the publish flag as its condition. *)
Lemma npmPublish_trace_Forall (P : Event -> Prop) w this cfg name path :
  (forall command args wd env,
      Forall P (gate w (_publish this) command args wd env)) ->
  Forall P (trace (_npmPublish w this cfg name path)).
Proof.
  intros HP. unfold _npmPublish.
  apply trace_bind_Forall; [by rewrite trace_Map_get_prop|].
  intros [|]; [|constructor].
  destruct (JS.truthy (_registryUrl this)); rewrite execCommand_trace; apply HP.
Qed.

(** ** The selective workflow *)

Section Selective.
Context (w : World) (this : Parameters) (cfg : RushConfiguration).
Context (tok : PrereleaseToken).

Lemma publishLoopBody_runs change :
  all_succeed w -> resolvable cfg change ->
  runs (publishLoopBody w this cfg (projectsByName cfg) change)
    (publish_events w this cfg change) tt.
Proof.
  intros Hok Hres.
  unfold publishLoopBody, publish_events, eligible, folder_of, resolvable in *.
  destruct (ChangeType.gt _ _); [|reflexivity].
  destruct Hres as [p Hp]; [done|].
  eapply (runs_bind _ _ [] _ _ tt); [by apply runs_Map_get_prop|].
  rewrite Hp, (npmPublish_eq _ _ _ _ _ p Hp).
  destruct (shouldPublish p); [|reflexivity].
  by apply execCommand_runs.
Qed.

Lemma tagLoopBody_runs change :
  all_succeed w -> resolvable cfg change ->
  runs (tagLoopBody w this cfg change) (tag_events w this cfg change) tt.
Proof.
  intros Hok Hres.
  unfold tagLoopBody, tag_events, eligible, resolvable in *.
  destruct (ChangeType.gt _ _); [|reflexivity].
  destruct Hres as [p Hp]; [done|].
  eapply (runs_bind _ _ [] _ _ tt); [by apply runs_Map_get_prop|].
  rewrite Hp.
  destruct (shouldPublish p); [|reflexivity].
  by apply execCommand_runs.
Qed.

(** The whole run, when every external call returns and every change
    above [dependency] names a project. *)
Lemma publishChanges_runs :
  let changes := resolvedChanges w this cfg tok (projectsByName cfg) in
  all_succeed w -> Forall (resolvable cfg) changes ->
  runs (_publishChanges w this cfg tok (projectsByName cfg))
    (selective_trace w this cfg tok changes) tt.
Proof.
  intros changes Hok Hres.
  unfold _publishChanges, selective_trace. fold (tempBranchName w).
  fold (resolvedChanges w this cfg tok (projectsByName cfg)). fold changes.
  eapply runs_bind; [by apply runs_external|].
  destruct changes as [|c cs] eqn:Hch; [reflexivity|].
  rewrite bool_decide_eq_true_2 by (simpl; lia).
  rewrite <- Hch in *.
  eapply runs_bind; [by apply execCommand_runs|].
  eapply runs_bind; [by apply runs_external|].
  eapply runs_bind.
  { destruct (hasValue tok); [apply runs_ret|].
    eapply runs_bind; by apply runs_external. }
  do 3 (eapply runs_bind; [by apply execCommand_runs|]).
  eapply runs_bind.
  { apply runs_for_of. intros x Hx. apply publishLoopBody_runs; [done|].
    by eapply Forall_forall in Hres. }
  eapply runs_bind.
  { apply runs_for_of. intros x Hx. apply tagLoopBody_runs; [done|].
    by eapply Forall_forall in Hres. }
  do 5 (eapply runs_bind; [by apply execCommand_runs|]).
  eapply runs_bind; by apply execCommand_runs.
Qed.

End Selective.

(** ** What every run of the selective workflow is made of *)

Section SelectiveForall.
Context (w : World) (this : Parameters) (cfg : RushConfiguration).
Context (tok : PrereleaseToken) (P : Event -> Prop).
Hypothesis P_git : forall command args wd env,
  Forall P (gate w (JS.truthy (_targetBranch this)) command args wd env).
Hypothesis P_tag : forall command args wd env,
  Forall P (gate w (tag_gate this) command args wd env).
Hypothesis P_npm : forall command args wd env,
  Forall P (gate w (_publish this) command args wd env).
Hypothesis P_resolve : forall path, P (FindChangeRequests path
                                         (_addCommitDetails this) tok).
Hypothesis P_update : P (UpdatePackages (_apply this)).
Hypothesis P_changelog : hasValue tok = false ->
  P (UpdateChangelogs (_apply this))
  /\ P (DeleteAll (_apply this || JS.truthy (_targetBranch this))).

Lemma git_Forall command args :
  Forall P
    (trace (_execCommand w (JS.truthy (_targetBranch this)) command args
              None None)).
Proof. rewrite execCommand_trace. apply P_git. Qed.

(** Holds however the run ends: no assumption on the external calls. *)
Lemma publishChanges_Forall allPackages :
  Forall P (trace (_publishChanges w this cfg tok allPackages)).
Proof.
  unfold _publishChanges.
  apply trace_bind_Forall; [by repeat constructor|]. intros _.
  case_bool_decide; [|constructor].
  apply trace_bind_Forall; [apply git_Forall|]. intros _.
  apply trace_bind_Forall;
    [rewrite trace_external; by repeat constructor|]. intros _.
  apply trace_bind_Forall.
  { destruct (hasValue tok) eqn:Htok; [constructor|].
    destruct P_changelog as [Hc Hd]; [done|].
    apply trace_bind_Forall.
    - rewrite trace_external. by repeat constructor.
    - intros _. rewrite trace_external. by repeat constructor. }
  intros _.
  do 3 (apply trace_bind_Forall; [apply git_Forall|]; intros _).
  apply trace_bind_Forall.
  { apply trace_for_of_Forall. intros change. unfold publishLoopBody.
    destruct (ChangeType.gt _ _); [|constructor].
    apply trace_bind_Forall; [by rewrite trace_Map_get_prop|].
    intros folder. by apply npmPublish_trace_Forall. }
  intros _.
  apply trace_bind_Forall.
  { apply trace_for_of_Forall. intros change. unfold tagLoopBody.
    destruct (ChangeType.gt _ _); [|constructor].
    apply trace_bind_Forall; [by rewrite trace_Map_get_prop|].
    intros [|]; [|constructor]. rewrite gitAddTag_trace. apply P_tag. }
  intros _.
  do 5 (apply trace_bind_Forall; [apply git_Forall|]; intros _).
  apply trace_bind_Forall; [apply git_Forall|]; intros _. apply git_Forall.
Qed.

End SelectiveForall.

(** ** The selective workflow without flags *)

Section DryRun.
Context (w : World) (this : Parameters) (cfg : RushConfiguration).
Context (tok : PrereleaseToken).
Hypothesis no_apply : _apply this = false.
Hypothesis no_targetBranch : JS.truthy (_targetBranch this) = false.
Hypothesis no_publish : _publish this = false.

Lemma publishChanges_quiet allPackages :
  Forall (fun e => mutates e = false)
    (trace (_publishChanges w this cfg tok allPackages)).
Proof.
  apply publishChanges_Forall; try done.
  - intros. rewrite no_targetBranch. by apply Forall_gate_closed.
  - intros. unfold tag_gate. rewrite no_targetBranch.
    by apply Forall_gate_closed.
  - intros. rewrite no_publish. by apply Forall_gate_closed.
  - by rewrite no_apply, no_targetBranch.
Qed.

Lemma console_lines_publish_events changes :
  console_lines (flat_map (publish_events w this cfg) changes)
  = dryrun_line w
    <$> ((fun change =>
            {| a_command := npmToolFilename cfg;
               a_args := npmPublish_args this;
               a_workingDirectory := folder_of cfg change |})
         <$> List.filter (eligible cfg) changes).
Proof.
  induction changes as [|c cs IH]; [done|].
  simpl. rewrite console_lines_app, IH. unfold publish_events.
  destruct (eligible cfg c); [|done].
  by rewrite console_lines_gate, no_publish.
Qed.

Lemma console_lines_tag_events changes :
  console_lines (flat_map (tag_events w this cfg) changes)
  = dryrun_line w
    <$> ((fun change =>
            {| a_command := "git";
               a_args := gitTag_args w (ci_packageName change)
                           (newVersion change);
               a_workingDirectory := None |})
         <$> List.filter (eligible cfg) changes).
Proof.
  induction changes as [|c cs IH]; [done|].
  simpl. rewrite console_lines_app, IH. unfold tag_events.
  destruct (eligible cfg c); [|done].
  rewrite console_lines_gate. unfold tag_gate. by rewrite no_targetBranch.
Qed.

Lemma console_lines_selective_trace changes :
  console_lines (selective_trace w this cfg tok changes)
  = dryrun_line w <$> planned_actions w this cfg changes.
Proof.
  unfold selective_trace, planned_actions.
  destruct changes as [|c cs]; [done|].
  set (changes := c :: cs).
  rewrite no_targetBranch.
  rewrite !console_lines_app, !console_lines_gate.
  rewrite console_lines_publish_events, console_lines_tag_events.
  rewrite !fmap_app.
  by destruct (hasValue tok).
Qed.

End DryRun.

(** C1: when none of [--apply], [--target-branch] and [--publish] is set, a
    run of the selective workflow spawns no process and calls no collaborator
    with its flag set, however it ends; and when every external call returns
    and every change names a project, it prints exactly one [DRYRUN] line for
    each planned gated action, in the order of the plan. *)
Theorem selective_without_flags_spawns_nothing
    (w : World) (this : Parameters) (cfg : RushConfiguration)
    (tok : PrereleaseToken) :
  _apply this = false ->
  JS.truthy (_targetBranch this) = false ->
  _publish this = false ->
  let run := _publishChanges w this cfg tok (projectsByName cfg) in
  let changes := resolvedChanges w this cfg tok (projectsByName cfg) in
  executed (trace run) = []
  /\ Forall (fun e => mutates e = false) (trace run)
  /\ (all_succeed w -> Forall (resolvable cfg) changes ->
      outcome run = Returned tt
      /\ console_lines (trace run)
         = dryrun_line w <$> planned_actions w this cfg changes).
Proof.
  intros Ha Hb Hp run changes.
  pose proof (publishChanges_quiet w this cfg tok Ha Hb Hp (projectsByName cfg))
    as Hquiet.
  split; [by apply executed_nil_of_no_mutation|].
  split; [done|].
  intros Hok Hres.
  pose proof (publishChanges_runs w this cfg tok Hok Hres) as Hruns.
  split; [by eapply runs_outcome|].
  subst run. rewrite (runs_trace _ _ _ Hruns).
  by apply console_lines_selective_trace.
Qed.

Lemma sample_resolvable :
  Forall (resolvable Sample.configuration) [Sample.changeA; Sample.changeB].
Proof.
  repeat (constructor; [intros ?; first [discriminate | by eexists]|]).
  constructor.
Defined.

Lemma selective_without_flags_witness :
  let run :=
    _publishChanges Sample.w0 Sample.no_flags Sample.configuration
      Sample.no_token (projectsByName Sample.configuration) in
  executed (trace run) = []
  /\ outcome run = Returned tt
  /\ length (console_lines (trace run)) = 13.
Proof.
  destruct (selective_without_flags_spawns_nothing Sample.w0 Sample.no_flags
              Sample.configuration Sample.no_token eq_refl eq_refl eq_refl)
    as (Hexec & _ & Hplan).
  destruct Hplan as [Hout Hlines];
    [apply sample_all_succeed | apply sample_resolvable |].
  split; [exact Hexec|]. split; [exact Hout|].
  rewrite Hlines. reflexivity.
Defined.

(** ** The publish step and the tag step of one change *)

Lemma trace_bind_runs {A B} (m : M A) (f : A -> M B) t a :
  runs m t a -> trace (m ≫= f) = t ++ trace (f a).
Proof.
  intros Hm. rewrite (trace_bind_returned m f a); [|by eapply runs_outcome].
  by rewrite (runs_trace _ _ _ Hm).
Qed.

Lemma publishLoopBody_trace w this cfg change p :
  Map_get (projectsByName cfg) (ci_packageName change) = Some p ->
  trace (publishLoopBody w this cfg (projectsByName cfg) change)
  = if ChangeType.gt (changeType change) ChangeType.dependency
       && shouldPublish p
    then gate w (_publish this) (npmToolFilename cfg) (npmPublish_args this)
           (Some (projectFolder p)) (Some (npmPublish_env w this))
    else [].
Proof.
  intros Hp. unfold publishLoopBody.
  destruct (ChangeType.gt _ _); [|done].
  rewrite (trace_bind_runs _ _ [] (projectFolder p));
    [|by apply runs_Map_get_prop].
  rewrite (npmPublish_eq _ _ _ _ _ p Hp). simpl.
  destruct (shouldPublish p); [|done]. apply execCommand_trace.
Qed.

Lemma tagLoopBody_trace w this cfg change p :
  Map_get (projectsByName cfg) (ci_packageName change) = Some p ->
  trace (tagLoopBody w this cfg change)
  = if ChangeType.gt (changeType change) ChangeType.dependency
       && shouldPublish p
    then gate w (tag_gate this) "git"
           (gitTag_args w (ci_packageName change) (newVersion change))
           None None
    else [].
Proof.
  intros Hp. unfold tagLoopBody.
  destruct (ChangeType.gt _ _); [|done].
  rewrite (trace_bind_runs _ _ [] (shouldPublish p));
    [|by apply runs_Map_get_prop].
  simpl. destruct (shouldPublish p); [|done]. apply execCommand_trace.
Qed.

(** The publish step and the tag step of one change record whose project is
    [p]: a record of type [dependency] produces no event in either step; a
    record above [dependency] spawns the registry publish if and only if
    [--publish] is set and [p.shouldPublish] holds, produces no event at all
    in the publish step when [p.shouldPublish] does not hold, and spawns the
    git tag if and only if, in addition, the target branch is set and no
    registry URL is given. *)
Theorem change_published_and_tagged_iff
    (w : World) (this : Parameters) (cfg : RushConfiguration)
    (change : IChangeInfo) (p : RushConfigurationProject) :
  Map_get (projectsByName cfg) (ci_packageName change) = Some p ->
  let publishStep :=
    trace (publishLoopBody w this cfg (projectsByName cfg) change) in
  let tagStep := trace (tagLoopBody w this cfg change) in
  (changeType change = ChangeType.dependency ->
   publishStep = [] /\ tagStep = [])
  /\ (ChangeType.gt (changeType change) ChangeType.dependency = true ->
      executed publishStep
      = (if _publish this && shouldPublish p
         then [ExecuteCommand (npmToolFilename cfg) (npmPublish_args this)
                 (projectFolder p) (Some (npmPublish_env w this))]
         else [])
      /\ (executed publishStep <> [] <->
          _publish this = true /\ shouldPublish p = true)
      /\ (shouldPublish p = false -> publishStep = [])
      /\ executed tagStep
         = (if _publish this && shouldPublish p
               && JS.truthy (_targetBranch this)
               && negb (JS.truthy (_registryUrl this))
            then [ExecuteCommand "git"
                    (gitTag_args w (ci_packageName change) (newVersion change))
                    (process_cwd w) None]
            else [])
      /\ (executed tagStep <> [] <->
          _publish this = true /\ shouldPublish p = true
          /\ JS.truthy (_targetBranch this) = true
          /\ JS.truthy (_registryUrl this) = false)).
Proof.
  intros Hp publishStep tagStep. subst publishStep tagStep.
  rewrite (publishLoopBody_trace _ _ _ _ _ Hp), (tagLoopBody_trace _ _ _ _ _ Hp).
  split.
  { intros ->. done. }
  intros ->. simpl. unfold tag_gate.
  destruct (shouldPublish p), (_publish this), (JS.truthy (_targetBranch this)),
    (JS.truthy (_registryUrl this)); simpl; repeat split; try done;
    intros; try tauto; try (destruct_and?; done); try naive_solver.
Qed.

(** ** No change to publish *)

(** C4: when the resolver yields no change, the selective workflow does
    nothing after the resolution: its only event is the resolver call, so it
    prints no line (no [DRYRUN] line either), spawns no process (no branch,
    no git command, no publish, no tag), whatever the flags are; and when the
    resolver call returns, the workflow returns normally. *)
Theorem no_changes_nothing_done
    (w : World) (this : Parameters) (cfg : RushConfiguration)
    (tok : PrereleaseToken) (allPackages : ProjectMap) :
  resolvedChanges w this cfg tok allPackages = [] ->
  let run := _publishChanges w this cfg tok allPackages in
  let resolve :=
    FindChangeRequests (path_join w (commonFolder cfg) "changes")
      (_addCommitDetails this) tok in
  trace run = [resolve]
  /\ console_lines (trace run) = []
  /\ executed (trace run) = []
  /\ (succeeds w resolve = true -> outcome run = Returned tt).
Proof.
  intros Hnil run resolve. subst run.
  unfold _publishChanges. fold resolve.
  fold (resolvedChanges w this cfg tok allPackages). rewrite Hnil. simpl.
  unfold mbind, M_bind, bind, external, ret. simpl.
  destruct (succeeds w resolve); simpl; repeat split; try done; by subst resolve.
Qed.

Lemma no_changes_nothing_done_witness :
  let run :=
    _publishChanges (Sample.world [] true) Sample.all_flags
      Sample.configuration Sample.no_token
      (projectsByName Sample.configuration) in
  length (trace run) = 1 /\ executed (trace run) = []
  /\ outcome run = Returned tt.
Proof.
  destruct (no_changes_nothing_done (Sample.world [] true) Sample.all_flags
              Sample.configuration Sample.no_token
              (projectsByName Sample.configuration) eq_refl)
    as (Htrace & _ & Hexec & Hout).
  split; [rewrite Htrace; reflexivity|].
  split; [exact Hexec | exact (Hout eq_refl)].
Defined.

(** ** Prerelease runs *)

Lemma filter_nil_of_Forall (f : Event -> bool) t :
  Forall (fun e => f e = false) t -> List.filter f t = [].
Proof. induction 1 as [|e t He _ IH]; simpl; [done | by rewrite He]. Qed.

Lemma Forall_gate_no_changelog w sh command args wd env :
  Forall (fun e => is_changelog_step e = false) (gate w sh command args wd env).
Proof. destruct sh; by repeat constructor. Qed.

Lemma Forall_flat_map {A} (P : Event -> Prop) (f : A -> list Event) l :
  (forall x, Forall P (f x)) -> Forall P (flat_map f l).
Proof.
  intros Hf. induction l as [|x l IH]; simpl; [constructor|].
  by apply Forall_app.
Qed.

Lemma filter_changelog_selective_trace w this cfg tok changes :
  changes <> [] ->
  List.filter is_changelog_step (selective_trace w this cfg tok changes)
  = if hasValue tok then []
    else [UpdateChangelogs (_apply this);
          DeleteAll (_apply this || JS.truthy (_targetBranch this))].
Proof.
  intros Hne. unfold selective_trace.
  destruct changes as [|c cs]; [done|]. set (changes := c :: cs).
  assert (Hgate : forall sh command args wd env,
             List.filter is_changelog_step (gate w sh command args wd env) = []).
  { intros. apply filter_nil_of_Forall, Forall_gate_no_changelog. }
  assert (Hpub : List.filter is_changelog_step
                   (flat_map (publish_events w this cfg) changes) = []).
  { apply filter_nil_of_Forall, Forall_flat_map. intros x.
    unfold publish_events. destruct (eligible cfg x); [|constructor].
    apply Forall_gate_no_changelog. }
  assert (Htag : List.filter is_changelog_step
                   (flat_map (tag_events w this cfg) changes) = []).
  { apply filter_nil_of_Forall, Forall_flat_map. intros x.
    unfold tag_events. destruct (eligible cfg x); [|constructor].
    apply Forall_gate_no_changelog. }
  rewrite !List.filter_app, !Hgate, Hpub, Htag.
  by destruct (hasValue tok).
Qed.

(** C5: in the selective workflow, with a prerelease token that has a value
    neither the changelog update nor the deletion of the change files is
    called, whatever [--apply] is and however the run ends.  Without a value,
    a run with at least one change (whose external calls return) calls the
    changelog update once, with the apply flag, and then the deletion once,
    with a flag that is true if and only if [--apply] is set or the target
    branch is set. *)
Theorem prerelease_skips_changelog_and_deletion
    (w : World) (this : Parameters) (cfg : RushConfiguration)
    (tok : PrereleaseToken) :
  let run := _publishChanges w this cfg tok (projectsByName cfg) in
  let changes := resolvedChanges w this cfg tok (projectsByName cfg) in
  (hasValue tok = true -> List.filter is_changelog_step (trace run) = [])
  /\ (hasValue tok = false ->
      all_succeed w -> changes <> [] -> Forall (resolvable cfg) changes ->
      exists shouldDelete,
        List.filter is_changelog_step (trace run)
        = [UpdateChangelogs (_apply this); DeleteAll shouldDelete]
        /\ (shouldDelete = true <->
            _apply this = true \/ JS.truthy (_targetBranch this) = true)).
Proof.
  intros run changes. split.
  - intros Htok. apply filter_nil_of_Forall.
    apply publishChanges_Forall; try done.
    + intros. apply Forall_gate_no_changelog.
    + intros. apply Forall_gate_no_changelog.
    + intros. apply Forall_gate_no_changelog.
    + intros Hno. congruence.
  - intros Htok Hok Hne Hres.
    exists (_apply this || JS.truthy (_targetBranch this)).
    split; [|apply orb_true_iff].
    subst run.
    rewrite (runs_trace _ _ _ (publishChanges_runs w this cfg tok Hok Hres)).
    rewrite filter_changelog_selective_trace by done.
    by rewrite Htok.
Qed.

Lemma prerelease_skips_witness :
  let run tok :=
    _publishChanges Sample.w0 Sample.all_flags Sample.configuration tok
      (projectsByName Sample.configuration) in
  List.filter is_changelog_step
    (trace (run {| prereleaseName := Some "beta"; suffix := None |})) = []
  /\ List.filter is_changelog_step (trace (run Sample.no_token))
     = [UpdateChangelogs true; DeleteAll true].
Proof.
  split.
  - exact (proj1 (prerelease_skips_changelog_and_deletion Sample.w0
                    Sample.all_flags Sample.configuration
                    {| prereleaseName := Some "beta"; suffix := None |})
             eq_refl).
  - destruct (proj2 (prerelease_skips_changelog_and_deletion Sample.w0
                       Sample.all_flags Sample.configuration Sample.no_token)
                eq_refl (sample_all_succeed _ _)) as (d & Hd & Hiff).
    + discriminate.
    + apply sample_resolvable.
    + rewrite Hd. f_equal. f_equal. f_equal. apply Hiff. by left.
Defined.

(** ** The registry probe *)

Lemma includes_spec (l : list string) (x : string) :
  JS.includes l x = true <-> x ∈ l.
Proof.
  unfold JS.includes. rewrite existsb_exists. split.
  - intros (y & Hy & Heq). apply String.eqb_eq in Heq. subst y.
    by apply list_elem_of_In.
  - intros Hx. exists x. split; [by apply list_elem_of_In|].
    apply String.eqb_refl.
Qed.

Lemma packageExists_runs w this p :
  all_succeed w ->
  runs (_packageExists w this p)
    [PublishedVersions (packageName p) (projectFolder p) (npmPublish_env w this)]
    (JS.includes (registry_versions w this p) (version p)).
Proof.
  intros Hok. unfold _packageExists, registry_versions, npmPublish_env.
  rewrite getEnvArgs_eq.
  eapply (runs_bind _ _ [_] tt []); [apply runs_external, Hok | reflexivity].
Qed.

(** C8: the registry probe asks the registry client once for the published
    versions of the package and returns true if and only if the version in
    the project's package.json is one of them.  When a registry URL is given,
    the environment of that call is the process environment with the one
    variable [npm_config_registry] set to the URL; otherwise it is the
    process environment. *)
Theorem packageExists_tests_membership
    (w : World) (this : Parameters) (p : RushConfigurationProject) :
  exists env : Env,
    let probe := PublishedVersions (packageName p) (projectFolder p) env in
    trace (_packageExists w this p) = [probe]
    /\ (succeeds w probe = true ->
        exists b, outcome (_packageExists w this p) = Returned b
                  /\ (b = true <->
                      version p ∈ Npm_publishedVersions w (packageName p)
                                    (projectFolder p) env))
    /\ (JS.truthy (_registryUrl this) = true ->
        env !! "npm_config_registry" = _registryUrl this
        /\ forall name, name <> "npm_config_registry" ->
                        env !! name = process_env w !! name)
    /\ (JS.truthy (_registryUrl this) = false -> env = process_env w).
Proof.
  exists (npmPublish_env w this). simpl.
  unfold _packageExists, npmPublish_env. rewrite getEnvArgs_eq.
  split; [|split; [|split]].
  - unfold mbind, M_bind, bind, external.
    by destruct (succeeds w _).
  - intros Hok. eexists. unfold mbind, M_bind, bind, external. rewrite Hok.
    simpl. split; [reflexivity|]. apply includes_spec.
  - intros Hurl. rewrite Hurl. destruct (_registryUrl this) as [url|]; [|done].
    simpl. split; [apply lookup_insert_eq|].
    intros name Hne. by apply lookup_insert_ne.
  - by intros ->.
Qed.

Lemma packageExists_witness :
  outcome (_packageExists Sample.w0 Sample.all_flags Sample.pkgA)
  = Returned true
  /\ outcome (_packageExists Sample.w0 Sample.all_flags Sample.pkgC)
     = Returned false.
Proof.
  split.
  - destruct (packageExists_tests_membership Sample.w0 Sample.all_flags
                Sample.pkgA) as (env & _ & Hb & _).
    destruct (Hb eq_refl) as (b & Hout & Hin). rewrite Hout. f_equal.
    apply Hin. left.
  - reflexivity.
Defined.

(** ** The publish-all workflow *)

Lemma runs_then_ret {A B} (m : M A) t a (b : B) :
  runs m t a -> runs (m ≫= fun _ => ret b) t b.
Proof.
  intros Hm. rewrite <- (app_nil_r t). eapply runs_bind; [done|apply runs_ret].
Qed.

Lemma Map_get_cons (m : ProjectMap) k p key :
  Map_get ((k, p) :: m) key = if String.eqb k key then Some p else Map_get m key.
Proof. unfold Map_get. simpl. by destruct (String.eqb k key). Qed.

(** In a map, whose keys are distinct, [get] of the key of an entry is that
    entry. *)
Lemma Map_get_entry (m : ProjectMap) k p :
  NoDup m.*1 -> (k, p) ∈ m -> Map_get m k = Some p.
Proof.
  induction m as [|[k' p'] m IH]; intros Hnd Hin; [by inversion Hin|].
  rewrite Map_get_cons. simpl in Hnd. apply NoDup_cons in Hnd as [Hk' Hnd].
  apply elem_of_cons in Hin as [Heq|Hin].
  - injection Heq as -> ->. by rewrite String.eqb_refl.
  - destruct (String.eqb_spec k' k) as [->|_]; [|by apply IH].
    exfalso. apply Hk'. apply list_elem_of_fmap. by exists (k, p).
Qed.

Section PublishAll.
Context (w : World) (this : Parameters) (cfg : RushConfiguration).
Hypothesis Hok : all_succeed w.

Lemma publishAllCallback_runs name p updated :
  Map_get (projectsByName cfg) name = Some p ->
  runs (publishAllCallback w this cfg p name updated)
    (publishAll_events w this cfg (name, p))
    (to_publish w this (name, p) || updated).
Proof.
  intros Hp. unfold publishAllCallback, publishAll_events, to_publish.
  cbn [fst snd]. destruct (shouldPublish p) eqn:Hsp; [|reflexivity].
  unfold needs_publish.
  destruct (_force this); cbn [orb andb].
  - eapply (runs_bind _ _ [] true); [apply runs_ret|].
    eapply runs_bind.
    { rewrite (npmPublish_eq _ _ _ _ _ p Hp), Hsp.
      by apply execCommand_runs. }
    eapply runs_then_ret. by apply execCommand_runs.
  - eapply (runs_bind _ _ [_]
              (negb (JS.includes (registry_versions w this p) (version p)))).
    { eapply (runs_bind _ _ [_] _ []);
        [by apply packageExists_runs | apply runs_ret]. }
    destruct (negb _); cbn [orb andb].
    + eapply runs_bind.
      { rewrite (npmPublish_eq _ _ _ _ _ p Hp), Hsp.
        by apply execCommand_runs. }
      eapply runs_then_ret. by apply execCommand_runs.
    + eapply runs_then_ret. apply runs_console_log.
Qed.

Lemma publishAll_scan_runs (l : ProjectMap) updated :
  (forall name p, (name, p) ∈ l ->
                  Map_get (projectsByName cfg) name = Some p) ->
  runs (Map_forEach l updated (publishAllCallback w this cfg))
    (flat_map (publishAll_events w this cfg) l)
    (existsb (to_publish w this) l || updated).
Proof.
  revert updated. induction l as [|[name p] l IH]; intros updated Hl.
  - reflexivity.
  - simpl.
    replace (to_publish w this (name, p) || existsb (to_publish w this) l
             || updated)
      with (existsb (to_publish w this) l
            || (to_publish w this (name, p) || updated))
      by (by destruct (to_publish _ _ _), (existsb _ _), updated).
    eapply runs_bind.
    + apply publishAllCallback_runs. apply Hl. left.
    + apply IH. intros n q Hq. apply Hl. by right.
Qed.

(** The whole of publish-all, when every external call returns. *)
Lemma publishAll_runs :
  NoDup (projectsByName cfg).*1 ->
  runs (_publishAll w this cfg (projectsByName cfg))
    (flat_map (publishAll_events w this cfg) (projectsByName cfg)
     ++ (if existsb (to_publish w this) (projectsByName cfg)
         then publishAll_push w this else []))
    tt.
Proof.
  intros Hnd. unfold _publishAll.
  eapply runs_bind.
  { apply publishAll_scan_runs. intros name p. by apply Map_get_entry. }
  rewrite orb_false_r.
  destruct (existsb _ _); [|reflexivity].
  by apply execCommand_runs.
Qed.

End PublishAll.

Lemma needs_publish_iff w this p :
  needs_publish w this p = true
  <-> _force this = true \/ version p ∉ registry_versions w this p.
Proof.
  unfold needs_publish. rewrite orb_true_iff, negb_true_iff.
  rewrite <- not_true_iff_false, includes_spec. done.
Qed.

(** C6: in the publish-all workflow (every external call returning, the
    keys of the project map distinct), the scan visits the projects in map
    order.  A project without [shouldPublish] produces no event.  A project
    with [shouldPublish] goes through the publish step and then the
    tag-creation step if and only if [--force] is set or its package.json
    version is not in the published-version list of the registry; otherwise
    the only line printed for it is the skip line and nothing is spawned for
    it.  After the scan the push step is performed if and only if at least
    one project went through the publish step. *)
Theorem publishAll_publishes_what_is_missing
    (w : World) (this : Parameters) (cfg : RushConfiguration) :
  all_succeed w ->
  NoDup (projectsByName cfg).*1 ->
  let run := _publishAll w this cfg (projectsByName cfg) in
  let projects := projectsByName cfg in
  let pushed := existsb (to_publish w this) projects in
  outcome run = Returned tt
  /\ trace run
     = flat_map (publishAll_events w this cfg) projects
       ++ (if pushed then publishAll_push w this else [])
  /\ (forall name p, shouldPublish p = false ->
                     publishAll_events w this cfg (name, p) = [])
  /\ (forall name p, shouldPublish p = true ->
        (needs_publish w this p = true <->
         _force this = true \/ version p ∉ registry_versions w this p)
        /\ (needs_publish w this p = true ->
            console_lines (publishAll_events w this cfg (name, p))
            = [gate_line w (_publish this) (npmToolFilename cfg)
                 (npmPublish_args this) (Some (projectFolder p));
               gate_line w (tag_gate this) "git"
                 (gitTag_args w name (version p)) None])
        /\ (needs_publish w this p = false ->
            console_lines (publishAll_events w this cfg (name, p))
            = ["Skip " +:+ name +:+ ". Not updated."]
            /\ executed (publishAll_events w this cfg (name, p)) = []))
  /\ (pushed = true <->
      exists name p, (name, p) ∈ projects /\ shouldPublish p = true
                     /\ needs_publish w this p = true).
Proof.
  intros Hok Hnd run projects pushed.
  pose proof (publishAll_runs w this cfg Hok Hnd) as Hruns.
  split; [by eapply runs_outcome|].
  split; [by eapply runs_trace|].
  split.
  { intros name p Hsp. unfold publishAll_events. simpl. by rewrite Hsp. }
  split.
  { intros name p Hsp. split; [apply needs_publish_iff|].
    unfold publishAll_events. cbn [fst snd]. rewrite Hsp.
    split; intros Hneed; rewrite Hneed.
    - rewrite !console_lines_app, !console_lines_gate.
      by destruct (_force this).
    - rewrite console_lines_app, executed_app.
      by destruct (_force this). }
  subst pushed. rewrite existsb_exists. split.
  - intros ([name p] & Hin & Hto). exists name, p.
    unfold to_publish in Hto. apply andb_true_iff in Hto as [? ?].
    by rewrite <- list_elem_of_In in Hin.
  - intros (name & p & Hin & Hsp & Hneed). exists (name, p).
    split; [by apply list_elem_of_In|].
    unfold to_publish. simpl. by rewrite Hsp, Hneed.
Qed.

Lemma sample_NoDup : NoDup (projectsByName Sample.configuration).*1.
Proof. apply (bool_decide_unpack _). vm_compute. exact I. Defined.

Lemma publishAll_witness :
  let run :=
    _publishAll Sample.w0 Sample.all_flags Sample.configuration
      (projectsByName Sample.configuration) in
  outcome run = Returned tt
  /\ length (executed (trace run)) = 3
  /\ length (console_lines (trace run)) = 4.
Proof.
  destruct (publishAll_publishes_what_is_missing Sample.w0 Sample.all_flags
              Sample.configuration (sample_all_succeed _ _) sample_NoDup)
    as (Hout & Htrace & _).
  split; [exact Hout|]. rewrite Htrace. split; reflexivity.
Defined.

(** ** Publish-all without a target branch *)

Section PublishAllWithoutBranch.
Context (w : World) (this : Parameters) (cfg : RushConfiguration).
Hypothesis Hpublish : _publish this = true.
Hypothesis Hbranch : JS.truthy (_targetBranch this) = false.

Lemma executed_publishAll_events entry :
  executed (publishAll_events w this cfg entry)
  = if to_publish w this entry then [npm_publish_command w this cfg entry]
    else [].
Proof.
  unfold publishAll_events, to_publish, tag_gate.
  rewrite Hpublish, Hbranch.
  destruct (shouldPublish entry.2); [|done].
  rewrite executed_app. cbn [andb].
  destruct (needs_publish w this entry.2); by destruct (_force this).
Qed.

Lemma console_lines_publishAll_events entry :
  console_lines (publishAll_events w this cfg entry)
  = publishAll_lines_without_branch w this cfg entry.
Proof.
  unfold publishAll_events, publishAll_lines_without_branch, tag_gate.
  rewrite Hpublish, Hbranch.
  destruct (shouldPublish entry.2); [|done].
  rewrite console_lines_app.
  destruct (needs_publish w this entry.2); by destruct (_force this).
Qed.

Lemma executed_publishAll_scan l :
  executed (flat_map (publishAll_events w this cfg) l)
  = npm_publish_command w this cfg <$> List.filter (to_publish w this) l.
Proof.
  induction l as [|entry l IH]; [done|].
  simpl. rewrite executed_app, IH, executed_publishAll_events.
  by destruct (to_publish w this entry).
Qed.

Lemma console_lines_publishAll_scan l :
  console_lines (flat_map (publishAll_events w this cfg) l)
  = flat_map (publishAll_lines_without_branch w this cfg) l.
Proof.
  induction l as [|entry l IH]; [done|].
  simpl. by rewrite console_lines_app, IH, console_lines_publishAll_events.
Qed.

End PublishAllWithoutBranch.

(** C10: the tag command is gated by the target branch together with the
    publish flag and the absence of a registry URL, the push command by the
    target branch alone, the registry publish by the publish flag alone.
    Hence a publish-all run with [--publish] and without target branch
    (every external call returning, the keys of the project map distinct)
    spawns exactly the registry publishes of the projects to publish, in map
    order, and nothing else: each tag and the final push are printed as
    [DRYRUN] lines only. *)
Theorem publishAll_without_target_branch
    (w : World) (this : Parameters) (cfg : RushConfiguration) :
  (forall name ver,
      trace (_gitAddTag w this name ver)
      = gate w (JS.truthy (_targetBranch this) && _publish this
                && negb (JS.truthy (_registryUrl this)))
          "git" (gitTag_args w name ver) None None)
  /\ (forall branch,
         trace (_gitPush w this branch)
         = gate w (JS.truthy (_targetBranch this)) "git" (gitPush_args branch)
             None None)
  /\ (forall name path p,
         Map_get (projectsByName cfg) name = Some p ->
         shouldPublish p = true ->
         trace (_npmPublish w this cfg name path)
         = gate w (_publish this) (npmToolFilename cfg) (npmPublish_args this)
             (Some path) (Some (npmPublish_env w this)))
  /\ (all_succeed w ->
      NoDup (projectsByName cfg).*1 ->
      _publish this = true ->
      JS.truthy (_targetBranch this) = false ->
      let run := _publishAll w this cfg (projectsByName cfg) in
      let projects := projectsByName cfg in
      executed (trace run)
      = npm_publish_command w this cfg
        <$> List.filter (to_publish w this) projects
      /\ console_lines (trace run)
         = flat_map (publishAll_lines_without_branch w this cfg) projects
           ++ (if existsb (to_publish w this) projects
               then [gate_line w false "git"
                       (gitPush_args (JS.str (_targetBranch this))) None]
               else [])).
Proof.
  split; [intros; apply gitAddTag_trace|].
  split; [intros; apply gitPush_trace|].
  split.
  { intros name path p Hp Hsp. rewrite (npmPublish_eq _ _ _ _ _ p Hp), Hsp.
    apply execCommand_trace. }
  intros Hok Hnd Hpublish Hbranch run projects. subst run.
  rewrite (runs_trace _ _ _ (publishAll_runs w this cfg Hok Hnd)).
  fold projects. unfold publishAll_push. rewrite Hbranch.
  rewrite executed_app, console_lines_app.
  rewrite executed_publishAll_scan, console_lines_publishAll_scan by done.
  split.
  - destruct (existsb _ _); simpl; by rewrite app_nil_r.
  - by destruct (existsb _ _).
Qed.

Lemma publishAll_without_target_branch_witness :
  let this :=
    {| _addCommitDetails := false; _apply := false; _includeAll := true;
       _npmAuthToken := None; _publish := true;
       _regenerateChangelogs := false; _registryUrl := None;
       _targetBranch := None; _prereleaseName := None; _suffix := None;
       _force := true |} in
  let run :=
    _publishAll Sample.w0 this Sample.configuration
      (projectsByName Sample.configuration) in
  executed (trace run)
  = [ExecuteCommand "npm" ["publish"; "--force"] "/repo/a"
       (Some (process_env Sample.w0));
     ExecuteCommand "npm" ["publish"; "--force"] "/repo/c"
       (Some (process_env Sample.w0))]
  /\ length (console_lines (trace run)) = 5.
Proof.
  intros this run.
  destruct (publishAll_without_target_branch Sample.w0 this
              Sample.configuration) as (_ & _ & _ & H).
  destruct (H (sample_all_succeed _ _) sample_NoDup eq_refl eq_refl)
    as [Hexec Hlines].
  subst run. split; [rewrite Hexec | rewrite Hlines]; reflexivity.
Defined.

(** ** The entry point *)

Lemma bind_assoc {A B C} (m : M A) (f : A -> M B) (g : B -> M C) :
  (m ≫= f) ≫= g = m ≫= (fun a => f a ≫= g).
Proof.
  unfold mbind, M_bind, bind. destruct m as [t [a|e|c]]; [|done|done].
  destruct (f a) as [t1 [b|e|c]]; [|done|done].
  destruct (g b) as [t2 o]. by rewrite app_assoc.
Qed.

Lemma onExecute_eq w this :
  onExecute w this
  = (startup w;;
     if negb (GitPolicy_check w (loadFromDefaultLocation w)) then process_exit 1
     else if _regenerateChangelogs this then
       console_log "Regenerating changelogs";;
       external w RegenerateChangelogs
     else
       (if _includeAll this && _publish this then
          _publishAll w this (loadFromDefaultLocation w)
            (projectsByName (loadFromDefaultLocation w))
        else
          _publishChanges w this (loadFromDefaultLocation w) (token_of this)
            (projectsByName (loadFromDefaultLocation w)));;
       console_log (finished_line w)).
Proof.
  unfold onExecute, startup. by rewrite !bind_assoc.
Qed.

Lemma startup_runs w :
  succeeds w LoadFromDefaultLocation = true ->
  succeeds w GitPolicyCheck = true ->
  runs (startup w)
    [ConsoleLog (starting_line w); LoadFromDefaultLocation; GitPolicyCheck] tt.
Proof.
  intros Hload Hcheck. unfold startup.
  eapply (runs_bind _ _ [_] tt [_; _]); [apply runs_console_log|].
  eapply (runs_bind _ _ [_] tt [_]); by apply runs_external.
Qed.

(** C7: when the git-policy check fails, the run prints its first line,
    loads the configuration, performs the check and exits with code 1:
    nothing else is called, printed or spawned. *)
Theorem policy_failure_exits_with_1 (w : World) (this : Parameters) :
  succeeds w LoadFromDefaultLocation = true ->
  succeeds w GitPolicyCheck = true ->
  GitPolicy_check w (loadFromDefaultLocation w) = false ->
  onExecute w this
  = ([ConsoleLog (starting_line w); LoadFromDefaultLocation; GitPolicyCheck],
     Exited 1)
  /\ executed (trace (onExecute w this)) = []
  /\ Forall (fun e => mutates e = false /\ is_resolve e = false
                      /\ match e with PublishedVersions _ _ _ => False
                         | _ => True end)
       (trace (onExecute w this)).
Proof.
  intros Hload Hcheck Hpolicy.
  assert (Heq : onExecute w this
                = ([ConsoleLog (starting_line w); LoadFromDefaultLocation;
                    GitPolicyCheck], Exited 1)).
  { rewrite onExecute_eq, Hpolicy.
    unfold mbind, M_bind, bind. by rewrite (startup_runs w Hload Hcheck). }
  rewrite Heq. split; [done|]. split; [done|].
  simpl. by repeat constructor.
Qed.

Lemma policy_failure_witness :
  outcome (onExecute (Sample.world [Sample.changeA] false) Sample.all_flags)
  = Exited 1
  /\ length (trace (onExecute (Sample.world [Sample.changeA] false)
                      Sample.all_flags)) = 3.
Proof.
  destruct (policy_failure_exits_with_1 (Sample.world [Sample.changeA] false)
              Sample.all_flags eq_refl eq_refl eq_refl) as [Heq _].
  rewrite Heq. split; reflexivity.
Defined.

(** ** Which workflow runs *)

Lemma trace_Map_forEach_Forall {S} (P : Event -> Prop) (m : ProjectMap)
    (s : S) callback :
  (forall value key s', Forall P (trace (callback value key s'))) ->
  Forall P (trace (Map_forEach m s callback)).
Proof.
  intros Hc. revert s. induction m as [|[key value] m IH]; intros s; simpl.
  - constructor.
  - apply trace_bind_Forall; [apply Hc | intros s'; apply IH].
Qed.

Lemma Forall_gate_no_resolve w sh command args wd env :
  Forall (fun e => is_resolve e = false) (gate w sh command args wd env).
Proof. destruct sh; by repeat constructor. Qed.

(** Publish-all never calls the change resolver, however it ends. *)
Lemma publishAll_no_resolve w this cfg allPackages :
  Forall (fun e => is_resolve e = false)
    (trace (_publishAll w this cfg allPackages)).
Proof.
  unfold _publishAll. apply trace_bind_Forall.
  - apply trace_Map_forEach_Forall. intros p name updated.
    unfold publishAllCallback. destruct (shouldPublish p); [|constructor].
    apply trace_bind_Forall.
    { destruct (_force this); [constructor|].
      apply trace_bind_Forall; [|intros; constructor].
      unfold _packageExists. apply trace_bind_Forall; [|intros; constructor].
      rewrite trace_external. by repeat constructor. }
    intros [|].
    + apply trace_bind_Forall.
      { apply npmPublish_trace_Forall. intros. apply Forall_gate_no_resolve. }
      intros _. apply trace_bind_Forall; [|intros; constructor].
      rewrite gitAddTag_trace. apply Forall_gate_no_resolve.
    + apply trace_bind_Forall; [by repeat constructor | intros; constructor].
  - intros [|]; [|constructor].
    rewrite gitPush_trace. apply Forall_gate_no_resolve.
Qed.

Lemma trace_bind_prefix {A B} (m : M A) (f : A -> M B) :
  exists t, trace (m ≫= f) = trace m ++ t.
Proof.
  unfold mbind, M_bind, bind. destruct m as [t [a|e|c]]; simpl.
  - destruct (f a) as [t' o]. by exists t'.
  - exists []. by rewrite app_nil_r.
  - exists []. by rewrite app_nil_r.
Qed.

(** The selective workflow begins with the call of the change resolver. *)
Lemma publishChanges_resolves_first w this cfg tok allPackages :
  exists path t,
    trace (_publishChanges w this cfg tok allPackages)
    = FindChangeRequests path (_addCommitDetails this) tok :: t.
Proof.
  unfold _publishChanges.
  match goal with
  | |- context [external w ?e ≫= ?f] =>
      destruct (trace_bind_prefix (external w e) f) as [t Ht]
  end.
  eexists _, t. exact Ht.
Qed.

(** C9: once the policy check has passed, [--include-all] without
    [--publish] is not rejected: the run is the selective workflow followed
    by the closing line.  Publish-all runs exactly when [--include-all] and
    [--publish] are both set and [--regenerate-changelogs] is not; with
    [--regenerate-changelogs] neither workflow runs.  Accordingly the change
    resolver, with which the selective workflow begins and which publish-all
    never calls, is called if and only if [--regenerate-changelogs] is not
    set and [--include-all] and [--publish] are not both set. *)
Theorem includeAll_without_publish_runs_selective
    (w : World) (this : Parameters) :
  succeeds w LoadFromDefaultLocation = true ->
  succeeds w GitPolicyCheck = true ->
  GitPolicy_check w (loadFromDefaultLocation w) = true ->
  let cfg := loadFromDefaultLocation w in
  let selective :=
    _publishChanges w this cfg (token_of this) (projectsByName cfg) in
  let publishAll := _publishAll w this cfg (projectsByName cfg) in
  let finish := console_log (finished_line w) in
  (_regenerateChangelogs this = false -> _includeAll this = true ->
   _publish this = false ->
   onExecute w this = (startup w;; selective;; finish))
  /\ (_regenerateChangelogs this = false ->
      onExecute w this
      = (startup w;;
         (if _includeAll this && _publish this then publishAll else selective);;
         finish))
  /\ (_regenerateChangelogs this = true ->
      onExecute w this
      = (startup w;; console_log "Regenerating changelogs";;
         external w RegenerateChangelogs))
  /\ (Exists (fun e => is_resolve e = true) (trace (onExecute w this)) <->
      _regenerateChangelogs this = false
      /\ _includeAll this && _publish this = false).
Proof.
  intros Hload Hcheck Hpolicy cfg selective publishAll finish.
  pose proof (startup_runs w Hload Hcheck) as Hstart.
  assert (Hregen : _regenerateChangelogs this = true ->
                   onExecute w this
                   = (startup w;; console_log "Regenerating changelogs";;
                      external w RegenerateChangelogs)).
  { intros Hr. by rewrite onExecute_eq, Hpolicy, Hr. }
  assert (Hgen : _regenerateChangelogs this = false ->
                 onExecute w this
                 = (startup w;;
                    (if _includeAll this && _publish this
                     then publishAll else selective);;
                    finish)).
  { intros Hr. by rewrite onExecute_eq, Hpolicy, Hr. }
  split.
  { intros Hr Hi Hp. rewrite Hgen by done. by rewrite Hi, Hp. }
  split; [done|]. split; [done|].
  destruct (_regenerateChangelogs this) eqn:Hr.
  - rewrite Hregen by done.
    rewrite (trace_bind_runs _ _ _ _ Hstart). simpl.
    split; [|by intros [? _]].
    intros Hex. apply Exists_exists in Hex as (e & Hin & He).
    repeat (apply elem_of_cons in Hin as [->|Hin]; [done|]).
    by apply elem_of_nil in Hin.
  - rewrite Hgen by done. rewrite (trace_bind_runs _ _ _ _ Hstart).
    destruct (_includeAll this && _publish this) eqn:Hboth.
    + split; [|by intros [_ ?]].
      intros Hex. exfalso.
      apply Exists_exists in Hex as (e & Hin & He).
      assert (Hno : Forall (fun e => is_resolve e = false)
                      ([ConsoleLog (starting_line w); LoadFromDefaultLocation;
                        GitPolicyCheck] ++ trace (publishAll;; finish))).
      { apply Forall_app. split; [by repeat constructor|].
        apply trace_bind_Forall; [apply publishAll_no_resolve|].
        intros _. by repeat constructor. }
      rewrite Forall_forall in Hno. specialize (Hno e Hin). congruence.
    + split; [done|]. intros _.
      destruct (publishChanges_resolves_first w this cfg (token_of this)
                  (projectsByName cfg)) as (path & t & Ht).
      destruct (trace_bind_prefix selective (fun _ => finish)) as [t' Ht'].
      rewrite Ht'. subst selective. rewrite Ht.
      apply Exists_app. right. apply Exists_app. left.
      by apply Exists_cons_hd.
Qed.

Lemma includeAll_without_publish_witness :
  let this :=
    {| _addCommitDetails := false; _apply := false; _includeAll := true;
       _npmAuthToken := None; _publish := false;
       _regenerateChangelogs := false; _registryUrl := None;
       _targetBranch := None; _prereleaseName := None; _suffix := None;
       _force := false |} in
  onExecute Sample.w0 this
  = (startup Sample.w0;;
     _publishChanges Sample.w0 this Sample.configuration Sample.no_token
       (projectsByName Sample.configuration);;
     console_log (finished_line Sample.w0))
  /\ outcome (onExecute Sample.w0 this) = Returned tt.
Proof.
  intros this.
  destruct (includeAll_without_publish_runs_selective Sample.w0 this
              eq_refl eq_refl eq_refl) as (Hsel & _).
  split; [exact (Hsel eq_refl eq_refl eq_refl) | reflexivity].
Defined.

(** * Further properties of the action *)

(** ** Arguments built by splitting a command line *)

Lemma split_nonempty sep s : JS.split sep s <> [].
Proof.
  destruct s as [|c s]; simpl; [done|].
  destruct (Ascii.eqb c sep); [done|]. by destruct (JS.split sep s).
Qed.

Lemma join_cons_cons sep x y l :
  JS.join sep (x :: y :: l) = x +:+ sep +:+ JS.join sep (y :: l).
Proof. reflexivity. Qed.

(** Joining the pieces of a split with the separator gives the string back. *)
Lemma join_split sep s :
  JS.join (String sep EmptyString) (JS.split sep s) = s.
Proof.
  induction s as [|c s IH]; [done|].
  simpl JS.split. destruct (Ascii.eqb_spec c sep) as [->|Hne].
  - pose proof (split_nonempty sep s) as Hnil.
    destruct (JS.split sep s) as [|h t]; [done|].
    rewrite join_cons_cons, IH. reflexivity.
  - pose proof (split_nonempty sep s) as Hnil.
    destruct (JS.split sep s) as [|h t]; [done|].
    destruct t as [|h' t].
    + simpl in *. by rewrite IH.
    + rewrite <- IH, !join_cons_cons. reflexivity.
Qed.

Lemma split_no_sep sep s : has_char sep s = false -> JS.split sep s = [s].
Proof.
  induction s as [|c s IH]; [done|]. simpl.
  intros H. apply orb_false_iff in H as [Hc Hs].
  by rewrite Hc, (IH Hs).
Qed.

Lemma split_app_sep sep a b :
  has_char sep a = false ->
  JS.split sep (a +:+ String sep b) = a :: JS.split sep b.
Proof.
  induction a as [|c a IH]; simpl.
  - intros _. by rewrite Ascii.eqb_refl.
  - intros H. apply orb_false_iff in H as [Hc Ha].
    by rewrite Hc, (IH Ha).
Qed.

Lemma join_space_split s : JS.join " " (JS.split JS.space s) = s.
Proof. apply join_split. Qed.

Lemma String_append_assoc (a b c : string) :
  (a +:+ b) +:+ c = a +:+ (b +:+ c).
Proof.
  induction a as [|x a IH]; [done|].
  change (String x ((a +:+ b) +:+ c) = String x (a +:+ (b +:+ c))).
  by rewrite IH.
Qed.

(** X1: whatever the branch name, empty or with spaces, the line a git
    helper prints shows the command line exactly as the helper wrote it
    before splitting it into arguments. *)
Theorem git_helpers_log_command_as_written
    (w : World) (this : Parameters) (branchName : string)
    (createBranch : bool) :
  let tag := if JS.truthy (_targetBranch this) then "EXECUTING" else "DRYRUN" in
  console_lines (trace (_gitCheckout w this branchName createBranch))
  = [EOL w +:+ "* " +:+ tag +:+ ": git checkout "
     +:+ (if createBranch then "-b " else "") +:+ branchName +:+ " "
     +:+ cwd_suffix w]
  /\ console_lines (trace (_gitMerge w this branchName))
     = [EOL w +:+ "* " +:+ tag +:+ ": git merge " +:+ branchName
        +:+ " --no-edit " +:+ cwd_suffix w]
  /\ console_lines (trace (_gitPull w this))
     = [EOL w +:+ "* " +:+ tag +:+ ": git pull origin "
        +:+ JS.str (_targetBranch this) +:+ " " +:+ cwd_suffix w].
Proof.
  intros tag. unfold _gitCheckout, _gitMerge, _gitPull.
  rewrite !execCommand_trace, !console_lines_gate.
  unfold gate_line, cwd_suffix.
  rewrite !join_space_split. subst tag.
  repeat split; rewrite ?String_append_assoc; reflexivity.
Qed.

(** X2: a branch name without a space reaches git as one argument; a name
    with a space is cut there, and its pieces are passed as separate
    arguments (nothing is quoted). *)
Theorem git_helpers_split_branch_name
    (w : World) (this : Parameters) (branchName rest : string) :
  has_char JS.space branchName = false ->
  JS.truthy (_targetBranch this) = true ->
  executed (trace (_gitCheckout w this branchName true))
  = [git_command w ["checkout"; "-b"; branchName]]
  /\ executed (trace (_gitCheckout w this branchName false))
     = [git_command w ["checkout"; branchName]]
  /\ executed (trace (_gitMerge w this branchName))
     = [git_command w ["merge"; branchName; "--no-edit"]]
  /\ executed (trace (_gitCheckout w this (branchName +:+ " " +:+ rest) false))
     = [git_command w ("checkout" :: branchName :: JS.split JS.space rest)].
Proof.
  intros Hns Htb. unfold _gitCheckout, _gitMerge, git_command.
  rewrite !execCommand_trace, !executed_gate, Htb.
  assert (H1 : JS.split JS.space ("checkout " +:+ "-b " +:+ branchName)
               = ["checkout"; "-b"; branchName]).
  { change ("checkout " +:+ "-b " +:+ branchName)
      with ("checkout" +:+ String JS.space ("-b" +:+ String JS.space branchName)).
    by rewrite !split_app_sep, split_no_sep. }
  assert (H2 : JS.split JS.space ("checkout " +:+ "" +:+ branchName)
               = ["checkout"; branchName]).
  { change ("checkout " +:+ "" +:+ branchName)
      with ("checkout" +:+ String JS.space branchName).
    by rewrite split_app_sep, split_no_sep. }
  assert (H3 : JS.split JS.space ("merge " +:+ branchName +:+ " --no-edit")
               = ["merge"; branchName; "--no-edit"]).
  { change ("merge " +:+ branchName +:+ " --no-edit")
      with ("merge" +:+ String JS.space
                          (branchName +:+ String JS.space "--no-edit")).
    by rewrite !split_app_sep, split_no_sep. }
  assert (H4 : JS.split JS.space
                 ("checkout " +:+ "" +:+ branchName +:+ " " +:+ rest)
               = "checkout" :: branchName :: JS.split JS.space rest).
  { change ("checkout " +:+ "" +:+ branchName +:+ " " +:+ rest)
      with ("checkout" +:+ String JS.space
                             (branchName +:+ String JS.space rest)).
    by rewrite !split_app_sep. }
  by rewrite H1, H2, H3, H4.
Qed.

Lemma git_helpers_split_branch_name_witness :
  executed (trace (_gitCheckout Sample.w0 Sample.all_flags "release" true))
  = [git_command Sample.w0 ["checkout"; "-b"; "release"]]
  /\ executed
       (trace (_gitCheckout Sample.w0 Sample.all_flags "my branch" false))
     = [git_command Sample.w0 ["checkout"; "my"; "branch"]].
Proof.
  split.
  - exact (proj1 (git_helpers_split_branch_name Sample.w0 Sample.all_flags
                    "release" "" eq_refl eq_refl)).
  - exact (proj2 (proj2 (proj2
             (git_helpers_split_branch_name Sample.w0 Sample.all_flags
                "my" "branch" eq_refl eq_refl)))).
Defined.

(** ** What the workflows are made of, command by command *)

Lemma npmPublish_trace_cases w this cfg name path :
  trace (_npmPublish w this cfg name path) = []
  \/ trace (_npmPublish w this cfg name path)
     = gate w (_publish this) (npmToolFilename cfg) (npmPublish_args this)
         (Some path) (Some (npmPublish_env w this)).
Proof.
  destruct (Map_get (projectsByName cfg) name) as [p|] eqn:Hp.
  - rewrite (npmPublish_eq _ _ _ _ _ p Hp).
    destruct (shouldPublish p); [right; apply execCommand_trace | by left].
  - left. unfold _npmPublish, Map_get_prop. by rewrite Hp.
Qed.

Section SelectiveShape.
Context (w : World) (this : Parameters) (cfg : RushConfiguration).
Context (tok : PrereleaseToken) (P : Event -> Prop).
Hypothesis P_git : forall args,
  Forall P (gate w (JS.truthy (_targetBranch this)) "git" args None None).
Hypothesis P_tag : forall name ver,
  Forall P (gate w (tag_gate this) "git" (gitTag_args w name ver) None None).
Hypothesis P_npm : forall path,
  Forall P (gate w (_publish this) (npmToolFilename cfg)
              (npmPublish_args this) (Some path)
              (Some (npmPublish_env w this))).
Hypothesis P_collaborator : forall e, is_execute e = false -> P e.

Lemma git_shape args :
  Forall P
    (trace (_execCommand w (JS.truthy (_targetBranch this)) "git" args
              None None)).
Proof. rewrite execCommand_trace. apply P_git. Qed.

(** Holds however the run ends. *)
Lemma publishChanges_shape allPackages :
  Forall P (trace (_publishChanges w this cfg tok allPackages)).
Proof.
  unfold _publishChanges.
  apply trace_bind_Forall;
    [rewrite trace_external; repeat constructor; by apply P_collaborator|].
  intros _. case_bool_decide; [|constructor].
  apply trace_bind_Forall; [apply git_shape|]. intros _.
  apply trace_bind_Forall;
    [rewrite trace_external; repeat constructor; by apply P_collaborator|].
  intros _.
  apply trace_bind_Forall.
  { destruct (hasValue tok); [constructor|].
    apply trace_bind_Forall; [|intros _];
      rewrite trace_external; repeat constructor; by apply P_collaborator. }
  intros _.
  do 3 (apply trace_bind_Forall; [apply git_shape|]; intros _).
  apply trace_bind_Forall.
  { apply trace_for_of_Forall. intros change. unfold publishLoopBody.
    destruct (ChangeType.gt _ _); [|constructor].
    apply trace_bind_Forall; [by rewrite trace_Map_get_prop|].
    intros folder.
    destruct (npmPublish_trace_cases w this cfg (ci_packageName change) folder)
      as [-> | ->]; [constructor | apply P_npm]. }
  intros _.
  apply trace_bind_Forall.
  { apply trace_for_of_Forall. intros change. unfold tagLoopBody.
    destruct (ChangeType.gt _ _); [|constructor].
    apply trace_bind_Forall; [by rewrite trace_Map_get_prop|].
    intros [|]; [|constructor]. rewrite gitAddTag_trace. apply P_tag. }
  intros _.
  do 5 (apply trace_bind_Forall; [apply git_shape|]; intros _).
  apply trace_bind_Forall; [apply git_shape|]; intros _. apply git_shape.
Qed.

End SelectiveShape.

(** X3: every process the selective workflow spawns, however the run ends,
    is either a git command, run in the current directory without an
    environment of its own and only when the target branch is set, or the
    registry publish, run with the arguments and the environment built by
    [_npmPublish] and only when [--publish] is set. *)
Theorem selective_spawns_only_git_and_npm
    (w : World) (this : Parameters) (cfg : RushConfiguration)
    (tok : PrereleaseToken) (allPackages : ProjectMap) :
  Forall (selective_process w this cfg)
    (trace (_publishChanges w this cfg tok allPackages)).
Proof.
  apply publishChanges_shape.
  - intros args. unfold gate.
    destruct (JS.truthy (_targetBranch this)) eqn:Htb.
    + constructor; [exact I|]. constructor; [|constructor].
      by left.
    + constructor; [exact I | constructor].
  - intros name ver. unfold gate, tag_gate.
    destruct (JS.truthy (_targetBranch this)) eqn:Htb; simpl;
      [|constructor; [exact I | constructor]].
    destruct (_publish this && negb (JS.truthy (_registryUrl this))).
    + constructor; [exact I|]. constructor; [|constructor].
      by left.
    + constructor; [exact I | constructor].
  - intros path. unfold gate.
    destruct (_publish this) eqn:Hp.
    + constructor; [exact I|]. constructor; [|constructor].
      by right.
    + constructor; [exact I | constructor].
  - intros e He. by destruct e.
Qed.

Section PublishAllShape.
Context (w : World) (this : Parameters) (cfg : RushConfiguration).
Context (P : Event -> Prop).
Hypothesis P_npm : forall path,
  Forall P (gate w (_publish this) (npmToolFilename cfg)
              (npmPublish_args this) (Some path)
              (Some (npmPublish_env w this))).
Hypothesis P_tag : forall name ver,
  Forall P (gate w (tag_gate this) "git" (gitTag_args w name ver) None None).
Hypothesis P_push : Forall P (publishAll_push w this).
Hypothesis P_probe : _force this = false ->
  forall name folder, P (PublishedVersions name folder (npmPublish_env w this)).
Hypothesis P_skip : forall line, P (ConsoleLog line).

(** Holds however the run ends. *)
Lemma publishAll_shape allPackages :
  Forall P (trace (_publishAll w this cfg allPackages)).
Proof.
  unfold _publishAll. apply trace_bind_Forall.
  - apply trace_Map_forEach_Forall. intros p name updated.
    unfold publishAllCallback. destruct (shouldPublish p); [|constructor].
    apply trace_bind_Forall.
    { destruct (_force this) eqn:Hforce; [constructor|].
      apply trace_bind_Forall; [|intros; constructor].
      unfold _packageExists. rewrite getEnvArgs_eq.
      apply trace_bind_Forall; [|intros; constructor].
      rewrite trace_external. constructor; [|constructor].
      by apply P_probe. }
    intros [|].
    + apply trace_bind_Forall.
      { destruct (npmPublish_trace_cases w this cfg name (projectFolder p))
          as [-> | ->]; [constructor | apply P_npm]. }
      intros _. apply trace_bind_Forall; [|intros; constructor].
      rewrite gitAddTag_trace. apply P_tag.
    + apply trace_bind_Forall; [|intros; constructor].
      constructor; [apply P_skip | constructor].
  - intros [|]; [|constructor].
    rewrite gitPush_trace. apply P_push.
Qed.

End PublishAllShape.

Lemma Forall_gate_of (P : Event -> Prop) w sh command args wd env :
  (forall line, P (ConsoleLog line)) ->
  (sh = true ->
   P (ExecuteCommand command args (default (process_cwd w) wd) env)) ->
  Forall P (gate w sh command args wd env).
Proof.
  intros Hlog Hexec. unfold gate. constructor; [apply Hlog|].
  destruct sh; constructor; [by apply Hexec | constructor].
Qed.

(** X4: publish-all, however it ends, only prints lines, queries the
    registry, and spawns the registry publish (only with [--publish]), git
    tags (only when the tag gate is open) and the git push of the target
    branch (only when the target branch is set).  It never calls the change
    resolver, never updates a manifest, a changelog or the change files, and
    never runs any other git command: no checkout, commit or merge. *)
Theorem publishAll_only_probes_publishes_tags_pushes
    (w : World) (this : Parameters) (cfg : RushConfiguration)
    (allPackages : ProjectMap) :
  Forall (publishAll_event w this cfg)
    (trace (_publishAll w this cfg allPackages)).
Proof.
  apply publishAll_shape.
  - intros path. apply Forall_gate_of; [done|]. intros Hp. by left.
  - intros name ver. apply Forall_gate_of; [done|]. intros Ht.
    right. left. split; [done|]. by exists name, ver.
  - apply Forall_gate_of; [done|]. intros Hb. right. right. by split.
  - done.
  - done.
Qed.

(** X5: with [--force] publish-all never queries the registry, however the
    run ends; without it, a run whose external calls return queries the
    registry exactly once for each project that has [shouldPublish], in map
    order, and for no other project. *)
Theorem publishAll_force_skips_probe
    (w : World) (this : Parameters) (cfg : RushConfiguration) :
  (_force this = true ->
   forall allPackages,
     List.filter is_probe (trace (_publishAll w this cfg allPackages)) = [])
  /\ (_force this = false ->
      all_succeed w ->
      NoDup (projectsByName cfg).*1 ->
      List.filter is_probe
        (trace (_publishAll w this cfg (projectsByName cfg)))
      = (fun entry : string * RushConfigurationProject =>
           PublishedVersions (packageName entry.2) (projectFolder entry.2)
             (npmPublish_env w this))
        <$> List.filter (fun entry => shouldPublish entry.2)
              (projectsByName cfg)).
Proof.
  split.
  - intros Hforce allPackages. apply filter_nil_of_Forall.
    apply publishAll_shape.
    + intros. apply Forall_gate_of; done.
    + intros. apply Forall_gate_of; done.
    + apply Forall_gate_of; done.
    + intros Hno. congruence.
    + done.
  - intros Hforce Hok Hnd.
    rewrite (runs_trace _ _ _ (publishAll_runs w this cfg Hok Hnd)).
    rewrite List.filter_app.
    assert (Hpush : List.filter is_probe
                      (if existsb (to_publish w this) (projectsByName cfg)
                       then publishAll_push w this else []) = []).
    { destruct (existsb _ _); [|done].
      apply filter_nil_of_Forall. apply Forall_gate_of; done. }
    rewrite Hpush, app_nil_r. clear Hpush Hnd.
    induction (projectsByName cfg) as [|entry l IH]; [done|].
    simpl. rewrite List.filter_app, IH.
    unfold publishAll_events at 1. rewrite Hforce.
    destruct (shouldPublish entry.2); [|done].
    rewrite List.filter_app.
    assert (Hrest :
              List.filter is_probe
                (if needs_publish w this entry.2
                 then gate w (_publish this) (npmToolFilename cfg)
                        (npmPublish_args this) (Some (projectFolder entry.2))
                        (Some (npmPublish_env w this))
                      ++ gate w (tag_gate this) "git"
                           (gitTag_args w entry.1 (version entry.2)) None None
                 else [ConsoleLog ("Skip " +:+ entry.1 +:+ ". Not updated.")])
              = []).
    { destruct (needs_publish w this entry.2); [|done].
      apply filter_nil_of_Forall, Forall_app.
      split; apply Forall_gate_of; done. }
    rewrite Hrest. reflexivity.
Qed.

Lemma publishAll_force_skips_probe_witness :
  let forced :=
    {| _addCommitDetails := false; _apply := false; _includeAll := true;
       _npmAuthToken := None; _publish := true;
       _regenerateChangelogs := false; _registryUrl := None;
       _targetBranch := Some "main"; _prereleaseName := None;
       _suffix := None; _force := true |} in
  List.filter is_probe
    (trace (_publishAll Sample.w0 forced Sample.configuration
              (projectsByName Sample.configuration))) = []
  /\ List.filter is_probe
       (trace (_publishAll Sample.w0 Sample.all_flags Sample.configuration
                 (projectsByName Sample.configuration)))
     = [PublishedVersions "pkgA" "/repo/a" (process_env Sample.w0);
        PublishedVersions "pkgC" "/repo/c" (process_env Sample.w0)].
Proof.
  intros forced. split.
  - exact (proj1 (publishAll_force_skips_probe Sample.w0 forced
                    Sample.configuration)
             eq_refl (projectsByName Sample.configuration)).
  - rewrite (proj2 (publishAll_force_skips_probe Sample.w0 Sample.all_flags
                      Sample.configuration)
               eq_refl (sample_all_succeed _ _) sample_NoDup).
    reflexivity.
Defined.

(** ** Failing external calls *)

Lemma until_failure_all_ok w t :
  forallb (event_ok w) t = true -> until_failure w t = t.
Proof.
  induction t as [|e t IH]; simpl; [done|].
  intros H. apply andb_true_iff in H as [He Ht]. by rewrite He, IH.
Qed.

Lemma until_failure_app_ok w t1 t2 :
  forallb (event_ok w) t1 = true ->
  until_failure w (t1 ++ t2) = t1 ++ until_failure w t2.
Proof.
  induction t1 as [|e t IH]; simpl; [done|].
  intros H. apply andb_true_iff in H as [He Ht]. by rewrite He, IH.
Qed.

Lemma until_failure_app_fail w t1 t2 :
  forallb (event_ok w) t1 = false ->
  until_failure w (t1 ++ t2) = until_failure w t1.
Proof.
  induction t1 as [|e t IH]; simpl; [done|].
  destruct (event_ok w e); simpl; [|done]. intros H. by rewrite IH.
Qed.

(** The trace of a run is an initial part of the events it goes through. *)
Lemma until_failure_prefix w t : exists t', t = until_failure w t ++ t'.
Proof.
  induction t as [|e t [t' IH]]; [by exists []|].
  simpl. destruct (event_ok w e).
  - exists t'. by rewrite <- IH.
  - by exists t.
Qed.

Lemma plays_ret {A} w (a : A) : plays w (ret a) [] a.
Proof. reflexivity. Qed.

Lemma plays_bind {A B} w (m : M A) (f : A -> M B) t a t' b :
  plays w m t a -> plays w (f a) t' b -> plays w (m ≫= f) (t ++ t') b.
Proof.
  unfold plays, mbind, M_bind, bind. intros Hm Hf. rewrite Hm.
  rewrite forallb_app.
  destruct (forallb (event_ok w) t) eqn:Ht.
  - rewrite Hf. by rewrite until_failure_app_ok, (until_failure_all_ok w t).
  - by rewrite until_failure_app_fail.
Qed.

Lemma plays_then_ret {A B} w (m : M A) t a (b : B) :
  plays w m t a -> plays w (m ≫= fun _ => ret b) t b.
Proof.
  intros Hm. rewrite <- (app_nil_r t).
  eapply plays_bind; [done | apply plays_ret].
Qed.

Lemma plays_console_log w line :
  plays w (console_log line) [ConsoleLog line] tt.
Proof. reflexivity. Qed.

Lemma plays_external w e :
  event_ok w e = succeeds w e -> plays w (external w e) [e] tt.
Proof.
  intros He. unfold plays, external. simpl. rewrite He.
  by destruct (succeeds w e).
Qed.

Lemma plays_Map_get_prop {A} w (m : ProjectMap) key (prop : _ -> A) p :
  Map_get m key = Some p -> plays w (Map_get_prop m key prop) [] (prop p).
Proof. unfold Map_get_prop. by intros ->. Qed.

Lemma plays_execCommand w sh command args wd env :
  plays w (_execCommand w sh command args wd env)
    (gate w sh command args wd env) tt.
Proof.
  rewrite execCommand_eq. unfold gate. destruct sh.
  - eapply (plays_bind _ _ _ [_] tt [_]); [apply plays_console_log|].
    by apply plays_external.
  - reflexivity.
Qed.

Lemma plays_for_of {A} w (l : list A) (body : A -> M unit)
    (tr : A -> list Event) :
  (forall x, x ∈ l -> plays w (body x) (tr x) tt) ->
  plays w (for_of l body) (flat_map tr l) tt.
Proof.
  induction l as [|x l IH]; intros Hb; simpl; [reflexivity|].
  eapply plays_bind; [apply Hb; left | apply IH].
  intros y Hy. apply Hb. by right.
Qed.

(** A run that plays its events and none of them fails returns. *)
Lemma plays_runs {A} w (m : M A) t a :
  plays w m t a -> all_succeed w -> runs m t a.
Proof.
  unfold plays, runs. intros -> Hok.
  assert (Hall : forallb (event_ok w) t = true).
  { apply forallb_forall. intros e _. destruct e; simpl; auto. }
  by rewrite Hall, until_failure_all_ok.
Qed.

Section SelectivePlays.
Context (w : World) (this : Parameters) (cfg : RushConfiguration).
Context (tok : PrereleaseToken).

Lemma publishLoopBody_plays change :
  resolvable cfg change ->
  plays w (publishLoopBody w this cfg (projectsByName cfg) change)
    (publish_events w this cfg change) tt.
Proof.
  intros Hres.
  unfold publishLoopBody, publish_events, eligible, folder_of, resolvable in *.
  destruct (ChangeType.gt _ _); [|reflexivity].
  destruct Hres as [p Hp]; [done|].
  eapply (plays_bind _ _ _ [] _ _ tt); [by apply plays_Map_get_prop|].
  rewrite Hp, (npmPublish_eq _ _ _ _ _ p Hp).
  destruct (shouldPublish p); [|reflexivity].
  apply plays_execCommand.
Qed.

Lemma tagLoopBody_plays change :
  resolvable cfg change ->
  plays w (tagLoopBody w this cfg change) (tag_events w this cfg change) tt.
Proof.
  intros Hres.
  unfold tagLoopBody, tag_events, eligible, resolvable in *.
  destruct (ChangeType.gt _ _); [|reflexivity].
  destruct Hres as [p Hp]; [done|].
  eapply (plays_bind _ _ _ [] _ _ tt); [by apply plays_Map_get_prop|].
  rewrite Hp.
  destruct (shouldPublish p); [|reflexivity].
  apply plays_execCommand.
Qed.

Lemma publishChanges_plays :
  let changes := resolvedChanges w this cfg tok (projectsByName cfg) in
  Forall (resolvable cfg) changes ->
  plays w (_publishChanges w this cfg tok (projectsByName cfg))
    (selective_trace w this cfg tok changes) tt.
Proof.
  intros changes Hres.
  unfold _publishChanges, selective_trace. fold (tempBranchName w).
  fold (resolvedChanges w this cfg tok (projectsByName cfg)). fold changes.
  eapply plays_bind; [by apply plays_external|].
  destruct changes as [|c cs] eqn:Hch; [reflexivity|].
  rewrite bool_decide_eq_true_2 by (simpl; lia).
  rewrite <- Hch in *.
  eapply plays_bind; [apply plays_execCommand|].
  eapply plays_bind; [by apply plays_external|].
  eapply plays_bind.
  { destruct (hasValue tok); [apply plays_ret|].
    eapply plays_bind; by apply plays_external. }
  do 3 (eapply plays_bind; [apply plays_execCommand|]).
  eapply plays_bind.
  { apply plays_for_of. intros x Hx. apply publishLoopBody_plays.
    by eapply Forall_forall in Hres. }
  eapply plays_bind.
  { apply plays_for_of. intros x Hx. apply tagLoopBody_plays.
    by eapply Forall_forall in Hres. }
  do 5 (eapply plays_bind; [apply plays_execCommand|]).
  eapply plays_bind; apply plays_execCommand.
Qed.

End SelectivePlays.

Lemma until_failure_last w t :
  forallb (event_ok w) t = false ->
  exists before e,
    until_failure w t = before ++ [e] /\ event_ok w e = false
    /\ forallb (event_ok w) before = true.
Proof.
  induction t as [|e t IH]; simpl; [done|].
  destruct (event_ok w e) eqn:He; simpl.
  - intros Ht. destruct (IH Ht) as (before & e' & Heq & He' & Hb).
    exists (e :: before), e'. rewrite Heq. simpl. by rewrite He, Hb.
  - intros _. by exists [], e.
Qed.

(** X6: whether an external call fails is here decided by the call itself
    (the collaborator or command, its arguments, directory and environment),
    so that identical calls, such as the two pushes of the temporary branch,
    fail alike.  For every such pattern of failures, a run of the selective
    workflow (every change above [dependency] naming a project) goes through
    the events of the complete run in order and stops at the first external
    call that fails: nothing after that call is called, printed or spawned.
    The run returns normally if and only if no call fails; otherwise it
    throws, and the failed call is the last event of its trace. *)
Theorem selective_stops_at_first_failure
    (w : World) (this : Parameters) (cfg : RushConfiguration)
    (tok : PrereleaseToken) :
  let changes := resolvedChanges w this cfg tok (projectsByName cfg) in
  let complete := selective_trace w this cfg tok changes in
  let run := _publishChanges w this cfg tok (projectsByName cfg) in
  Forall (resolvable cfg) changes ->
  trace run = until_failure w complete
  /\ (exists rest, complete = trace run ++ rest)
  /\ (outcome run = Returned tt <-> forallb (event_ok w) complete = true)
  /\ (forallb (event_ok w) complete = false ->
      outcome run = Thrown ExternalFailure
      /\ exists before failed,
           trace run = before ++ [failed] /\ event_ok w failed = false
           /\ forallb (event_ok w) before = true).
Proof.
  intros changes complete run Hres.
  pose proof (publishChanges_plays w this cfg tok Hres) as Hplays.
  unfold plays in Hplays. fold changes complete run in Hplays.
  rewrite Hplays. unfold trace, outcome. cbn [fst snd].
  split; [done|]. split; [apply until_failure_prefix|]. split.
  - by destruct (forallb (event_ok w) complete).
  - intros Hfail. rewrite Hfail. split; [done|].
    by apply until_failure_last.
Qed.

Lemma selective_stops_at_first_failure_witness :
  let w := Sample.world [Sample.changeA; Sample.changeB] true in
  let failing :=
    {| EOL := EOL w; process_cwd := process_cwd w;
       process_env := process_env w; path_join := path_join w;
       path_relative := path_relative w; Date_getTime := Date_getTime w;
       colors_green := colors_green w;
       loadFromDefaultLocation := loadFromDefaultLocation w;
       GitPolicy_check := GitPolicy_check w;
       findChangeRequests := findChangeRequests w;
       sortChangeRequests := sortChangeRequests w;
       createTagname := createTagname w;
       Npm_publishedVersions := Npm_publishedVersions w;
       succeeds := fun e =>
         match e with
         | ExecuteCommand command _ _ _ => negb (String.eqb command "npm")
         | _ => true
         end |} in
  let run :=
    _publishChanges failing Sample.all_flags Sample.configuration
      Sample.no_token (projectsByName Sample.configuration) in
  outcome run = Thrown ExternalFailure /\ length (trace run) = 14.
Proof.
  intros w failing run.
  destruct (selective_stops_at_first_failure failing Sample.all_flags
              Sample.configuration Sample.no_token sample_resolvable)
    as (Htrace & _ & _ & Hfail).
  split.
  - exact (proj1 (Hfail eq_refl)).
  - subst run. rewrite Htrace. reflexivity.
Defined.

(** ** Runs that throw *)

Lemma throws_bind_l {A B} (m : M A) (f : A -> M B) t e :
  throws m t e -> throws (m ≫= f) t e.
Proof. unfold throws, mbind, M_bind, bind. by intros ->. Qed.

Lemma throws_bind_r {A B} (m : M A) (f : A -> M B) t a t' e :
  runs m t a -> throws (f a) t' e -> throws (m ≫= f) (t ++ t') e.
Proof.
  unfold runs, throws, mbind, M_bind, bind. intros Hm Hf. by rewrite Hm, Hf.
Qed.

Lemma throws_external w e :
  succeeds w e = false -> throws (external w e) [e] ExternalFailure.
Proof. unfold throws, external. by intros ->. Qed.

Lemma throws_execCommand w command args wd env :
  succeeds w (ExecuteCommand command args (default (process_cwd w) wd) env)
  = false ->
  throws (_execCommand w true command args wd env)
    (gate w true command args wd env) ExternalFailure.
Proof.
  intros Hfail. rewrite execCommand_eq. unfold gate.
  eapply (throws_bind_r _ _ [_] tt [_]); [apply runs_console_log|].
  by apply throws_external.
Qed.

Lemma throws_for_of {A} (before : list A) (x : A) (after : list A)
    (body : A -> M unit) (tr : A -> list Event) t e :
  (forall y, y ∈ before -> runs (body y) (tr y) tt) ->
  throws (body x) t e ->
  throws (for_of (before ++ x :: after) body) (flat_map tr before ++ t) e.
Proof.
  intros Hb Hx. induction before as [|y before IH]; simpl.
  - by apply throws_bind_l.
  - rewrite <- app_assoc. eapply throws_bind_r; [apply Hb; left|].
    apply IH. intros z Hz. apply Hb. by right.
Qed.

(** X7: with the target branch set, when the creation of the temporary
    branch fails the selective workflow throws at once: after the resolver
    call, the line of the command and the command itself nothing happens, so
    no manifest, changelog or change file is touched even with [--apply],
    and nothing is published. *)
Theorem failed_branch_creation_stops_everything
    (w : World) (this : Parameters) (cfg : RushConfiguration)
    (tok : PrereleaseToken) (allPackages : ProjectMap) :
  let resolve :=
    FindChangeRequests (path_join w (commonFolder cfg) "changes")
      (_addCommitDetails this) tok in
  let args := JS.split JS.space ("checkout -b " +:+ tempBranchName w) in
  resolvedChanges w this cfg tok allPackages <> [] ->
  JS.truthy (_targetBranch this) = true ->
  succeeds w resolve = true ->
  succeeds w (git_command w args) = false ->
  _publishChanges w this cfg tok allPackages
  = ([resolve; ConsoleLog (gate_line w true "git" args None);
      git_command w args],
     Thrown ExternalFailure).
Proof.
  intros resolve args Hne Htb Hres Hfail.
  unfold _publishChanges. fold resolve.
  fold (resolvedChanges w this cfg tok allPackages).
  apply (throws_bind_r _ _ [resolve] tt [_; _]); [by apply runs_external|].
  rewrite bool_decide_eq_true_2
    by (destruct (resolvedChanges w this cfg tok allPackages);
        [done | simpl; lia]).
  apply throws_bind_l. unfold _gitCheckout. rewrite Htb.
  by apply throws_execCommand.
Qed.

Lemma failed_branch_creation_witness :
  let w := Sample.w0 in
  let failing :=
    {| EOL := EOL w; process_cwd := process_cwd w;
       process_env := process_env w; path_join := path_join w;
       path_relative := path_relative w; Date_getTime := Date_getTime w;
       colors_green := colors_green w;
       loadFromDefaultLocation := loadFromDefaultLocation w;
       GitPolicy_check := GitPolicy_check w;
       findChangeRequests := findChangeRequests w;
       sortChangeRequests := sortChangeRequests w;
       createTagname := createTagname w;
       Npm_publishedVersions := Npm_publishedVersions w;
       succeeds := fun e =>
         match e with
         | ExecuteCommand command _ _ _ => negb (String.eqb command "git")
         | _ => true
         end |} in
  let run :=
    _publishChanges failing Sample.all_flags Sample.configuration
      Sample.no_token (projectsByName Sample.configuration) in
  outcome run = Thrown ExternalFailure /\ length (trace run) = 3.
Proof.
  intros w failing run. subst run.
  rewrite (failed_branch_creation_stops_everything failing Sample.all_flags
             Sample.configuration Sample.no_token
             (projectsByName Sample.configuration));
    [split; reflexivity | discriminate | reflexivity | reflexivity
     | reflexivity].
Defined.

(** X8: when every external call returns but a change above [dependency]
    names a package that is not in the project map, the selective workflow
    throws a [TypeError] inside the publish loop, at that change: the
    temporary branch has been created, committed and pushed, and the earlier
    changes have gone through their publish step, but no tag is created and
    nothing is merged into the target branch. *)
Theorem unknown_package_aborts_in_publish_loop
    (w : World) (this : Parameters) (cfg : RushConfiguration)
    (tok : PrereleaseToken) (before after : list IChangeInfo)
    (change : IChangeInfo) :
  all_succeed w ->
  resolvedChanges w this cfg tok (projectsByName cfg)
  = before ++ change :: after ->
  Forall (resolvable cfg) before ->
  ChangeType.gt (changeType change) ChangeType.dependency = true ->
  Map_get (projectsByName cfg) (ci_packageName change) = None ->
  _publishChanges w this cfg tok (projectsByName cfg)
  = (selective_before_publish w this cfg tok
       (flat_map (publish_events w this cfg) before),
     Thrown TypeError).
Proof.
  intros Hok Hch Hres Hgt Hnone.
  unfold _publishChanges, selective_before_publish. fold (tempBranchName w).
  fold (resolvedChanges w this cfg tok (projectsByName cfg)). rewrite Hch.
  eapply throws_bind_r; [by apply runs_external|].
  rewrite bool_decide_eq_true_2 by (rewrite length_app; simpl; lia).
  eapply throws_bind_r; [by apply execCommand_runs|].
  eapply throws_bind_r; [by apply runs_external|].
  eapply throws_bind_r.
  { destruct (hasValue tok); [apply runs_ret|].
    eapply runs_bind; by apply runs_external. }
  do 3 (eapply throws_bind_r; [by apply execCommand_runs|]).
  apply throws_bind_l.
  rewrite <- (app_nil_r (flat_map _ before)).
  apply throws_for_of.
  - intros y Hy. apply publishLoopBody_runs; [done|].
    by eapply Forall_forall in Hres.
  - unfold publishLoopBody, Map_get_prop. by rewrite Hgt, Hnone.
Qed.

Lemma unknown_package_witness :
  let stranger :=
    {| ci_packageName := "pkgZ"; changeType := ChangeType.patch;
       newVersion := "0.0.1" |} in
  let run :=
    _publishChanges (Sample.world [Sample.changeA; stranger] true)
      Sample.all_flags Sample.configuration Sample.no_token
      (projectsByName Sample.configuration) in
  outcome run = Thrown TypeError
  /\ length (executed (trace run)) = 5.
Proof.
  intros stranger run. subst run.
  rewrite (unknown_package_aborts_in_publish_loop
             (Sample.world [Sample.changeA; stranger] true) Sample.all_flags
             Sample.configuration Sample.no_token [Sample.changeA] []
             stranger (sample_all_succeed _ _) eq_refl).
  - split; reflexivity.
  - constructor; [|constructor]. intros _. by eexists.
  - reflexivity.
  - reflexivity.
Defined.

(** ** The processes of a complete run, in order *)

Lemma executed_publish_events w this cfg changes :
  executed (flat_map (publish_events w this cfg) changes)
  = if _publish this
    then change_publish_command w this cfg <$> List.filter (eligible cfg) changes
    else [].
Proof.
  induction changes as [|c cs IH]; [by destruct (_publish this)|].
  simpl. rewrite executed_app, IH. unfold publish_events.
  destruct (eligible cfg c); [|done].
  rewrite executed_gate. by destruct (_publish this).
Qed.

Lemma executed_tag_events w this cfg changes :
  executed (flat_map (tag_events w this cfg) changes)
  = if tag_gate this
    then change_tag_command w <$> List.filter (eligible cfg) changes
    else [].
Proof.
  induction changes as [|c cs IH]; [by destruct (tag_gate this)|].
  simpl. rewrite executed_app, IH. unfold tag_events.
  destruct (eligible cfg c); [|done].
  rewrite executed_gate. by destruct (tag_gate this).
Qed.

(** X9: in a run of the selective workflow with at least one change, whose
    external calls return, the spawned processes are, in this order: with a
    target branch, the creation of the temporary branch, add, commit and
    push; with [--publish], the registry publish of each change above
    [dependency] whose project has [shouldPublish], in resolution order;
    with target branch, [--publish] and no registry URL, the tag of each of
    these changes; with a target branch, push, checkout of the target
    branch, pull, merge, push and the two deletions of the temporary branch.
    So every publish comes after the push of the temporary branch and before
    every tag, and the merge comes last. *)
Theorem selective_processes_in_order
    (w : World) (this : Parameters) (cfg : RushConfiguration)
    (tok : PrereleaseToken) :
  let changes := resolvedChanges w this cfg tok (projectsByName cfg) in
  let published := List.filter (eligible cfg) changes in
  all_succeed w ->
  Forall (resolvable cfg) changes ->
  changes <> [] ->
  executed (trace (_publishChanges w this cfg tok (projectsByName cfg)))
  = (if JS.truthy (_targetBranch this) then git_commands_before w else [])
    ++ (if _publish this
        then change_publish_command w this cfg <$> published else [])
    ++ (if JS.truthy (_targetBranch this) && _publish this
           && negb (JS.truthy (_registryUrl this))
        then change_tag_command w <$> published else [])
    ++ (if JS.truthy (_targetBranch this)
        then git_commands_after w this else []).
Proof.
  intros changes published Hok Hres Hne.
  rewrite (runs_trace _ _ _ (publishChanges_runs w this cfg tok Hok Hres)).
  fold changes. subst published. clearbody changes. unfold selective_trace.
  destruct changes as [|c cs]; [done|].
  rewrite !executed_app, !executed_gate.
  rewrite executed_publish_events, executed_tag_events.
  unfold tag_gate.
  assert (Hfiles : executed
                     (if hasValue tok then []
                      else [UpdateChangelogs (_apply this)]
                           ++ [DeleteAll (_apply this
                                          || JS.truthy (_targetBranch this))])
                   = []) by by destruct (hasValue tok).
  rewrite Hfiles.
  unfold git_commands_before, git_commands_after, git_command.
  destruct (JS.truthy (_targetBranch this)); reflexivity.
Qed.

Lemma selective_processes_in_order_witness :
  executed
    (trace (_publishChanges Sample.w0 Sample.all_flags Sample.configuration
              Sample.no_token (projectsByName Sample.configuration)))
  = git_commands_before Sample.w0
    ++ [change_publish_command Sample.w0 Sample.all_flags
          Sample.configuration Sample.changeA]
    ++ [change_tag_command Sample.w0 Sample.changeA]
    ++ git_commands_after Sample.w0 Sample.all_flags.
Proof.
  rewrite (selective_processes_in_order Sample.w0 Sample.all_flags
             Sample.configuration Sample.no_token (sample_all_succeed _ _)
             sample_resolvable);
    [reflexivity | discriminate].
Defined.

Lemma console_lines_publish_events_gated w this cfg changes :
  console_lines (flat_map (publish_events w this cfg) changes)
  = action_line w (_publish this)
    <$> ((fun change =>
            {| a_command := npmToolFilename cfg;
               a_args := npmPublish_args this;
               a_workingDirectory := folder_of cfg change |})
         <$> List.filter (eligible cfg) changes).
Proof.
  induction changes as [|c cs IH]; [done|].
  simpl. rewrite console_lines_app, IH. unfold publish_events.
  destruct (eligible cfg c); [|done]. by rewrite console_lines_gate.
Qed.

Lemma console_lines_tag_events_gated w this cfg changes :
  console_lines (flat_map (tag_events w this cfg) changes)
  = action_line w (tag_gate this)
    <$> ((fun change =>
            {| a_command := "git";
               a_args := gitTag_args w (ci_packageName change)
                           (newVersion change);
               a_workingDirectory := None |})
         <$> List.filter (eligible cfg) changes).
Proof.
  induction changes as [|c cs IH]; [done|].
  simpl. rewrite console_lines_app, IH. unfold tag_events.
  destruct (eligible cfg c); [|done]. by rewrite console_lines_gate.
Qed.

(** X10: whatever the flags are, a run of the selective workflow whose
    external calls return prints exactly one line for each planned gated
    action, in the order of the plan: none when no change was resolved, and
    otherwise eleven lines for the git steps and two for each change above
    [dependency] whose project has [shouldPublish].  Each line is the line
    of its planned action, marked [EXECUTING] or [DRYRUN] by the gate of
    that action: the target branch for the git steps, [--publish] for the
    publishes, the tag gate for the tags. *)
Theorem selective_prints_whole_plan
    (w : World) (this : Parameters) (cfg : RushConfiguration)
    (tok : PrereleaseToken) :
  let changes := resolvedChanges w this cfg tok (projectsByName cfg) in
  let run := _publishChanges w this cfg tok (projectsByName cfg) in
  all_succeed w ->
  Forall (resolvable cfg) changes ->
  length (console_lines (trace run))
  = length (planned_actions w this cfg changes)
  /\ length (console_lines (trace run))
     = match changes with
       | [] => 0
       | _ :: _ => 11 + 2 * length (List.filter (eligible cfg) changes)
       end
  /\ console_lines (trace run)
     = zip_with (action_line w)
         (planned_gates this (length (List.filter (eligible cfg) changes)))
         (planned_actions w this cfg changes).
Proof.
  intros changes run Hok Hres. subst run.
  rewrite (runs_trace _ _ _ (publishChanges_runs w this cfg tok Hok Hres)).
  fold changes. clearbody changes.
  assert (Hlines :
            console_lines (selective_trace w this cfg tok changes)
            = zip_with (action_line w)
                (planned_gates this
                   (length (List.filter (eligible cfg) changes)))
                (planned_actions w this cfg changes)).
  { unfold selective_trace, planned_actions, planned_gates.
    destruct changes as [|c cs]; [apply eq_sym, zip_with_nil_r|].
    set (published := List.filter (eligible cfg) (c :: cs)).
    rewrite !console_lines_app, !console_lines_gate.
    rewrite console_lines_publish_events_gated, console_lines_tag_events_gated.
    fold published.
    assert (Hfiles : console_lines
                       (if hasValue tok then []
                        else [UpdateChangelogs (_apply this)]
                             ++ [DeleteAll
                                   (_apply this
                                    || JS.truthy (_targetBranch this))])
                     = []) by by destruct (hasValue tok).
    rewrite Hfiles.
    rewrite zip_with_app by reflexivity.
    rewrite zip_with_app by by rewrite length_replicate, length_fmap.
    rewrite zip_with_app by by rewrite length_replicate, length_fmap.
    rewrite !zip_with_replicate_l by (by rewrite ?length_fmap).
    reflexivity. }
  assert (Hlen : length (planned_actions w this cfg changes)
                 = match changes with
                   | [] => 0
                   | _ :: _ =>
                       11 + 2 * length (List.filter (eligible cfg) changes)
                   end).
  { unfold planned_actions. destruct changes as [|c cs]; [done|].
    rewrite !length_app, !length_fmap. simpl. lia. }
  assert (Hgates : length (planned_gates this
                             (length (List.filter (eligible cfg) changes)))
                   = 11 + 2 * length (List.filter (eligible cfg) changes)).
  { unfold planned_gates. rewrite !length_app, !length_replicate. lia. }
  rewrite Hlines, length_zip_with.
  rewrite Hgates, Hlen.
  split; [|split; [|done]]; destruct changes; simpl; lia.
Qed.

Lemma selective_prints_whole_plan_witness :
  length
    (console_lines
       (trace (_publishChanges Sample.w0 Sample.all_flags
                 Sample.configuration Sample.no_token
                 (projectsByName Sample.configuration)))) = 13.
Proof.
  rewrite (proj1 (proj2 (selective_prints_whole_plan Sample.w0
                           Sample.all_flags Sample.configuration
                           Sample.no_token (sample_all_succeed _ _)
                           sample_resolvable))).
  reflexivity.
Defined.

(** ** Publish-all with failing calls, and with nothing to publish *)

Section PublishAllPlays.
Context (w : World) (this : Parameters) (cfg : RushConfiguration).

Lemma packageExists_plays p :
  plays w (_packageExists w this p)
    [PublishedVersions (packageName p) (projectFolder p) (npmPublish_env w this)]
    (JS.includes (registry_versions w this p) (version p)).
Proof.
  unfold _packageExists, registry_versions, npmPublish_env.
  rewrite getEnvArgs_eq.
  eapply (plays_bind _ _ _ [_] tt []); [by apply plays_external | reflexivity].
Qed.

Lemma publishAllCallback_plays name p updated :
  Map_get (projectsByName cfg) name = Some p ->
  plays w (publishAllCallback w this cfg p name updated)
    (publishAll_events w this cfg (name, p))
    (to_publish w this (name, p) || updated).
Proof.
  intros Hp. unfold publishAllCallback, publishAll_events, to_publish.
  cbn [fst snd]. destruct (shouldPublish p) eqn:Hsp; [|reflexivity].
  unfold needs_publish.
  destruct (_force this); cbn [orb andb].
  - eapply (plays_bind _ _ _ [] true); [apply plays_ret|].
    eapply plays_bind.
    { rewrite (npmPublish_eq _ _ _ _ _ p Hp), Hsp. apply plays_execCommand. }
    eapply plays_then_ret. apply plays_execCommand.
  - eapply (plays_bind _ _ _ [_]
              (negb (JS.includes (registry_versions w this p) (version p)))).
    { eapply (plays_bind _ _ _ [_] _ []);
        [apply packageExists_plays | apply plays_ret]. }
    destruct (negb _); cbn [orb andb].
    + eapply plays_bind.
      { rewrite (npmPublish_eq _ _ _ _ _ p Hp), Hsp. apply plays_execCommand. }
      eapply plays_then_ret. apply plays_execCommand.
    + eapply plays_then_ret. apply plays_console_log.
Qed.

Lemma publishAll_scan_plays (l : ProjectMap) updated :
  (forall name p, (name, p) ∈ l ->
                  Map_get (projectsByName cfg) name = Some p) ->
  plays w (Map_forEach l updated (publishAllCallback w this cfg))
    (flat_map (publishAll_events w this cfg) l)
    (existsb (to_publish w this) l || updated).
Proof.
  revert updated. induction l as [|[name p] l IH]; intros updated Hl.
  - reflexivity.
  - simpl.
    replace (to_publish w this (name, p) || existsb (to_publish w this) l
             || updated)
      with (existsb (to_publish w this) l
            || (to_publish w this (name, p) || updated))
      by (by destruct (to_publish _ _ _), (existsb _ _), updated).
    eapply plays_bind.
    + apply publishAllCallback_plays. apply Hl. left.
    + apply IH. intros n q Hq. apply Hl. by right.
Qed.

Lemma publishAll_plays :
  NoDup (projectsByName cfg).*1 ->
  plays w (_publishAll w this cfg (projectsByName cfg))
    (publishAll_trace w this cfg) tt.
Proof.
  intros Hnd. unfold _publishAll, publishAll_trace.
  eapply plays_bind.
  { apply publishAll_scan_plays. intros name p. by apply Map_get_entry. }
  rewrite orb_false_r.
  destruct (existsb _ _); [|reflexivity].
  apply plays_execCommand.
Qed.

End PublishAllPlays.

(** X11: when external calls may fail, a run of publish-all goes through the
    events of the complete scan in order and stops at the first external
    call that fails (a registry probe, a publish, a tag or the push):
    the projects after it are neither probed nor published, and the final
    push is not made.  The run returns normally if and only if no call
    fails; otherwise it throws and the failed call is the last event. *)
Theorem publishAll_stops_at_first_failure
    (w : World) (this : Parameters) (cfg : RushConfiguration) :
  let complete := publishAll_trace w this cfg in
  let run := _publishAll w this cfg (projectsByName cfg) in
  NoDup (projectsByName cfg).*1 ->
  trace run = until_failure w complete
  /\ (exists rest, complete = trace run ++ rest)
  /\ (outcome run = Returned tt <-> forallb (event_ok w) complete = true)
  /\ (forallb (event_ok w) complete = false ->
      outcome run = Thrown ExternalFailure
      /\ exists before failed,
           trace run = before ++ [failed] /\ event_ok w failed = false
           /\ forallb (event_ok w) before = true).
Proof.
  intros complete run Hnd.
  pose proof (publishAll_plays w this cfg Hnd) as Hplays.
  unfold plays in Hplays. fold complete run in Hplays.
  rewrite Hplays. unfold trace, outcome. cbn [fst snd].
  split; [done|]. split; [apply until_failure_prefix|]. split.
  - by destruct (forallb (event_ok w) complete).
  - intros Hfail. rewrite Hfail. split; [done|].
    by apply until_failure_last.
Qed.

Lemma publishAll_stops_at_first_failure_witness :
  let w := Sample.w0 in
  let offline :=
    {| EOL := EOL w; process_cwd := process_cwd w;
       process_env := process_env w; path_join := path_join w;
       path_relative := path_relative w; Date_getTime := Date_getTime w;
       colors_green := colors_green w;
       loadFromDefaultLocation := loadFromDefaultLocation w;
       GitPolicy_check := GitPolicy_check w;
       findChangeRequests := findChangeRequests w;
       sortChangeRequests := sortChangeRequests w;
       createTagname := createTagname w;
       Npm_publishedVersions := Npm_publishedVersions w;
       succeeds := fun e => negb (is_probe e) |} in
  let run :=
    _publishAll offline Sample.all_flags Sample.configuration
      (projectsByName Sample.configuration) in
  run = ([PublishedVersions "pkgA" "/repo/a" (process_env w)],
         Thrown ExternalFailure).
Proof.
  intros w offline run.
  destruct (publishAll_stops_at_first_failure offline Sample.all_flags
              Sample.configuration sample_NoDup)
    as (Htrace & _ & _ & Hfail).
  destruct (Hfail eq_refl) as [Hout _].
  subst run. rewrite (surjective_pairing (_publishAll _ _ _ _)).
  unfold trace in Htrace. unfold outcome in Hout.
  rewrite Htrace, Hout. reflexivity.
Defined.

(** X12: without [--force], when the registry already lists the version of
    every project that has [shouldPublish], a run of publish-all (external
    calls returning) spawns no process at all, whatever the other flags:
    it prints the skip line of each such project, in map order, and nothing
    else, and does not push. *)
Theorem publishAll_nothing_to_publish
    (w : World) (this : Parameters) (cfg : RushConfiguration) :
  all_succeed w ->
  NoDup (projectsByName cfg).*1 ->
  _force this = false ->
  (forall name p, (name, p) ∈ projectsByName cfg -> shouldPublish p = true ->
                  version p ∈ registry_versions w this p) ->
  let run := _publishAll w this cfg (projectsByName cfg) in
  outcome run = Returned tt
  /\ executed (trace run) = []
  /\ console_lines (trace run)
     = (fun entry : string * RushConfigurationProject =>
          "Skip " +:+ entry.1 +:+ ". Not updated.")
       <$> List.filter (fun entry => shouldPublish entry.2)
             (projectsByName cfg).
Proof.
  intros Hok Hnd Hforce Hlisted run.
  pose proof (publishAll_runs w this cfg Hok Hnd) as Hruns.
  split; [by eapply runs_outcome|].
  subst run. rewrite (runs_trace _ _ _ Hruns). clear Hruns Hnd.
  assert (Hneeds : forall name p, (name, p) ∈ projectsByName cfg ->
                     shouldPublish p = true -> needs_publish w this p = false).
  { intros name p Hin Hsp. apply not_true_iff_false.
    rewrite needs_publish_iff. intros [Hf | Hv]; [congruence|].
    by apply Hv, (Hlisted name). }
  clear Hlisted.
  assert (Hscan : forall l : ProjectMap,
             (forall name p, (name, p) ∈ l -> shouldPublish p = true ->
                             needs_publish w this p = false) ->
             existsb (to_publish w this) l = false
             /\ executed (flat_map (publishAll_events w this cfg) l) = []
             /\ console_lines (flat_map (publishAll_events w this cfg) l)
                = (fun entry : string * RushConfigurationProject =>
                     "Skip " +:+ entry.1 +:+ ". Not updated.")
                  <$> List.filter (fun entry => shouldPublish entry.2) l).
  { induction l as [|[name p] l IH]; intros Hl; [done|].
    destruct IH as (He & Hx & Hc); [intros n q Hq; apply (Hl n q); by right|].
    assert (Hhead : publishAll_events w this cfg (name, p)
                    = if shouldPublish p
                      then [PublishedVersions (packageName p) (projectFolder p)
                              (npmPublish_env w this);
                            ConsoleLog ("Skip " +:+ name +:+ ". Not updated.")]
                      else []).
    { unfold publishAll_events. cbn [fst snd]. rewrite Hforce.
      destruct (shouldPublish p) eqn:Hsp; [|done].
      by rewrite (Hl name p) by (by left || done). }
    cbn [flat_map existsb List.filter].
    rewrite Hhead, executed_app, console_lines_app, He, Hx, Hc.
    unfold to_publish. cbn [fst snd].
    destruct (shouldPublish p) eqn:Hsp; [|done].
    by rewrite (Hl name p) by (by left || done). }
  destruct (Hscan _ Hneeds) as (He & Hx & Hc).
  rewrite He, app_nil_r. by split.
Qed.

Lemma publishAll_nothing_to_publish_witness :
  let upToDate : RushConfiguration :=
    {| commonFolder := "/repo/common"; npmToolFilename := "npm";
       projectsByName := [("pkgA", Sample.pkgA); ("pkgB", Sample.pkgB)] |} in
  let run :=
    _publishAll Sample.w0 Sample.all_flags upToDate (projectsByName upToDate) in
  executed (trace run) = []
  /\ console_lines (trace run) = ["Skip pkgA. Not updated."].
Proof.
  intros upToDate run.
  destruct (publishAll_nothing_to_publish Sample.w0 Sample.all_flags upToDate
              (sample_all_succeed _ _)) as (_ & Hexec & Hlines).
  - apply (bool_decide_unpack _). vm_compute. exact I.
  - reflexivity.
  - intros name p Hin Hsp.
    apply elem_of_cons in Hin as [Heq | Hin].
    + injection Heq as -> ->. left.
    + apply list_elem_of_singleton in Hin. injection Hin as -> ->.
      discriminate Hsp.
  - split; [exact Hexec | exact Hlines].
Defined.

(** ** How a run ends *)

Lemma never_exits_ret {A} (a : A) : never_exits (ret a).
Proof. by intros c. Qed.

Lemma never_exits_console_log line : never_exits (console_log line).
Proof. by intros c. Qed.

Lemma never_exits_external w e : never_exits (external w e).
Proof. intros c. unfold external. simpl. by destruct (succeeds w e). Qed.

Lemma never_exits_Map_get_prop {A} m key (prop : _ -> A) :
  never_exits (Map_get_prop m key prop).
Proof. intros c. unfold Map_get_prop. by destruct (Map_get m key). Qed.

Lemma never_exits_bind {A B} (m : M A) (f : A -> M B) :
  never_exits m -> (forall a, never_exits (f a)) -> never_exits (m ≫= f).
Proof.
  intros Hm Hf c. unfold mbind, M_bind, bind.
  destruct m as [t [a|e|c']]; simpl.
  - specialize (Hf a c). by destruct (f a).
  - done.
  - by specialize (Hm c').
Qed.

Lemma never_exits_for_of {A} (l : list A) body :
  (forall x, never_exits (body x)) -> never_exits (for_of l body).
Proof.
  intros Hb. induction l as [|x l IH]; simpl; [apply never_exits_ret|].
  by apply never_exits_bind.
Qed.

Lemma never_exits_Map_forEach {S} (m : ProjectMap) (s : S) callback :
  (forall value key s', never_exits (callback value key s')) ->
  never_exits (Map_forEach m s callback).
Proof.
  intros Hc. revert s. induction m as [|[key value] m IH]; intros s; simpl.
  - apply never_exits_ret.
  - apply never_exits_bind; [apply Hc | intros s'; apply IH].
Qed.

Lemma never_exits_execCommand w sh command args wd env :
  never_exits (_execCommand w sh command args wd env).
Proof.
  rewrite execCommand_eq.
  apply never_exits_bind; [apply never_exits_console_log|]. intros _.
  destruct sh; [apply never_exits_external | apply never_exits_ret].
Qed.

Lemma never_exits_npmPublish w this cfg name path :
  never_exits (_npmPublish w this cfg name path).
Proof.
  unfold _npmPublish.
  apply never_exits_bind; [apply never_exits_Map_get_prop|].
  intros [|]; [|apply never_exits_ret].
  destruct (JS.truthy (_registryUrl this)); apply never_exits_execCommand.
Qed.

Lemma never_exits_publishChanges w this cfg tok allPackages :
  never_exits (_publishChanges w this cfg tok allPackages).
Proof.
  unfold _publishChanges.
  apply never_exits_bind; [apply never_exits_external|]. intros _.
  case_bool_decide; [|apply never_exits_ret].
  apply never_exits_bind; [apply never_exits_execCommand|]. intros _.
  apply never_exits_bind; [apply never_exits_external|]. intros _.
  apply never_exits_bind.
  { destruct (hasValue tok); [apply never_exits_ret|].
    apply never_exits_bind; [|intros _]; apply never_exits_external. }
  intros _.
  do 3 (apply never_exits_bind; [apply never_exits_execCommand|]; intros _).
  apply never_exits_bind.
  { apply never_exits_for_of. intros change. unfold publishLoopBody.
    destruct (ChangeType.gt _ _); [|apply never_exits_ret].
    apply never_exits_bind; [apply never_exits_Map_get_prop|].
    intros folder. apply never_exits_npmPublish. }
  intros _.
  apply never_exits_bind.
  { apply never_exits_for_of. intros change. unfold tagLoopBody.
    destruct (ChangeType.gt _ _); [|apply never_exits_ret].
    apply never_exits_bind; [apply never_exits_Map_get_prop|].
    intros [|]; [apply never_exits_execCommand | apply never_exits_ret]. }
  intros _.
  do 5 (apply never_exits_bind; [apply never_exits_execCommand|]; intros _).
  apply never_exits_bind; [apply never_exits_execCommand|]; intros _.
  apply never_exits_execCommand.
Qed.

Lemma never_exits_publishAll w this cfg allPackages :
  never_exits (_publishAll w this cfg allPackages).
Proof.
  unfold _publishAll. apply never_exits_bind.
  - apply never_exits_Map_forEach. intros p name updated.
    unfold publishAllCallback.
    destruct (shouldPublish p); [|apply never_exits_ret].
    apply never_exits_bind.
    { destruct (_force this); [apply never_exits_ret|].
      apply never_exits_bind; [|intros; apply never_exits_ret].
      unfold _packageExists.
      apply never_exits_bind; [apply never_exits_external|].
      intros; apply never_exits_ret. }
    intros [|].
    + apply never_exits_bind; [apply never_exits_npmPublish|]. intros _.
      apply never_exits_bind; [apply never_exits_execCommand|].
      intros; apply never_exits_ret.
    + apply never_exits_bind; [apply never_exits_console_log|].
      intros; apply never_exits_ret.
  - intros [|]; [apply never_exits_execCommand | apply never_exits_ret].
Qed.

Lemma outcome_bind_runs {A B} (m : M A) (f : A -> M B) t a :
  runs m t a -> outcome (m ≫= f) = outcome (f a).
Proof.
  unfold runs, mbind, M_bind, bind. intros ->. by destruct (f a).
Qed.

(** X13: the only way the action ends the process is the exit with code 1
    after a failed policy check: a run exits with a code if and only if the
    code is 1, the configuration was loaded, the policy check was performed
    and it returned false.  No workflow, whatever it runs into, exits. *)
Theorem exits_only_on_policy_failure
    (w : World) (this : Parameters) (code : Z) :
  outcome (onExecute w this) = Exited code
  <-> code = 1%Z
      /\ succeeds w LoadFromDefaultLocation = true
      /\ succeeds w GitPolicyCheck = true
      /\ GitPolicy_check w (loadFromDefaultLocation w) = false.
Proof.
  rewrite onExecute_eq.
  destruct (succeeds w LoadFromDefaultLocation) eqn:Hload;
    [destruct (succeeds w GitPolicyCheck) eqn:Hcheck|].
  - rewrite (outcome_bind_runs _ _ _ _ (startup_runs w Hload Hcheck)).
    destruct (GitPolicy_check w (loadFromDefaultLocation w)) eqn:Hpolicy;
      cbn [negb].
    + split; [|by intros (_ & _ & _ & ?)].
      intros Hexit. exfalso. revert Hexit.
      match goal with |- outcome ?m = _ -> False =>
        assert (Hne : never_exits m); [|exact (Hne code)] end.
      destruct (_regenerateChangelogs this).
      * apply never_exits_bind; [apply never_exits_console_log|].
        intros _. apply never_exits_external.
      * apply never_exits_bind; [|intros _; apply never_exits_console_log].
        destruct (_includeAll this && _publish this);
          [apply never_exits_publishAll | apply never_exits_publishChanges].
    + split; [by intros [= <-] | by intros (-> & _)].
  - split; [|by intros (_ & _ & ? & _)].
    unfold startup, mbind, M_bind, bind, external, console_log. simpl.
    by rewrite Hload, Hcheck.
  - split; [|by intros (_ & ? & _)].
    unfold startup, mbind, M_bind, bind, external, console_log. simpl.
    by rewrite Hload.
Qed.

Lemma exits_only_on_policy_failure_witness :
  outcome (onExecute (Sample.world [Sample.changeA] false) Sample.no_flags)
  = Exited 1.
Proof.
  apply (proj2 (exits_only_on_policy_failure
                  (Sample.world [Sample.changeA] false) Sample.no_flags 1)).
  repeat split.
Defined.

(** X14: after a passed policy check, the closing line
    "Rush publish finished successfully." is printed exactly when a workflow
    ran and returned normally, and then it is the last event of the run.
    When the workflow throws, the run ends with the events of the workflow
    and the same error, without the line.  With [--regenerate-changelogs]
    the run consists of the regeneration alone, whatever the other flags
    are, and the closing line is not printed either. *)
Theorem closing_line_only_after_successful_workflow
    (w : World) (this : Parameters) :
  succeeds w LoadFromDefaultLocation = true ->
  succeeds w GitPolicyCheck = true ->
  GitPolicy_check w (loadFromDefaultLocation w) = true ->
  let cfg := loadFromDefaultLocation w in
  let workflow :=
    if _includeAll this && _publish this
    then _publishAll w this cfg (projectsByName cfg)
    else _publishChanges w this cfg (token_of this) (projectsByName cfg) in
  (_regenerateChangelogs this = false ->
   (outcome workflow = Returned tt ->
    onExecute w this
    = (startup_trace w ++ trace workflow ++ [ConsoleLog (finished_line w)],
       Returned tt))
   /\ (forall e, outcome workflow = Thrown e ->
                 onExecute w this
                 = (startup_trace w ++ trace workflow, Thrown e)))
  /\ (_regenerateChangelogs this = true ->
      trace (onExecute w this)
      = startup_trace w
        ++ [ConsoleLog "Regenerating changelogs"; RegenerateChangelogs]).
Proof.
  intros Hload Hcheck Hpolicy cfg workflow.
  pose proof (startup_runs w Hload Hcheck) as Hstart. unfold runs in Hstart.
  split.
  - intros Hregen. rewrite onExecute_eq, Hpolicy, Hregen. cbn [negb].
    fold cfg. fold workflow.
    unfold mbind, M_bind, bind. rewrite Hstart.
    destruct workflow as [t o]. unfold outcome, trace. cbn [fst snd].
    split.
    + intros ->. reflexivity.
    + intros e ->. reflexivity.
  - intros Hregen. rewrite onExecute_eq, Hpolicy, Hregen. cbn [negb].
    unfold mbind, M_bind, bind. rewrite Hstart. reflexivity.
Qed.

Lemma closing_line_witness :
  last (trace (onExecute Sample.w0 Sample.all_flags))
  = Some (ConsoleLog (finished_line Sample.w0)).
Proof.
  destruct (closing_line_only_after_successful_workflow Sample.w0
              Sample.all_flags eq_refl eq_refl eq_refl) as [Hrun _].
  destruct (Hrun eq_refl) as [Hok _].
  rewrite (Hok eq_refl). reflexivity.
Defined.

(** ** The arguments of the registry publish *)

Lemma index_after_scheme scheme rest :
  has_char slash scheme = false ->
  String.index 0 "//" (scheme +:+ "//" +:+ rest)
  = Some (String.length scheme).
Proof.
  induction scheme as [|c scheme IH]; intros Hno.
  - change ("" +:+ "//" +:+ rest)
      with (String (Ascii.ascii_of_nat 47)
              (String (Ascii.ascii_of_nat 47) rest)).
    cbn [String.index String.prefix].
    match goal with
    | |- context [Ascii.ascii_dec ?a ?b] =>
        destruct (Ascii.ascii_dec a b) as [_|Hne]; [|by exfalso; apply Hne]
    end.
    by destruct rest.
  - simpl in Hno. apply orb_false_iff in Hno as [Hc Hs].
    change (String c scheme +:+ "//" +:+ rest)
      with (String c (scheme +:+ "//" +:+ rest)).
    cbn [String.index String.prefix].
    match goal with
    | |- context [Ascii.ascii_dec ?a ?b] =>
        destruct (Ascii.ascii_dec a b) as [Heq|_]
    end.
    + exfalso. subst c. by rewrite Ascii.eqb_refl in Hc.
    + by rewrite (IH Hs).
Qed.

Lemma substring_whole s : String.substring 0 (String.length s) s = s.
Proof. induction s as [|c s IH]; simpl; [done | by rewrite IH]. Qed.

Lemma substring_after a b :
  String.substring (String.length a) (String.length b) (a +:+ b) = b.
Proof.
  induction a as [|c a IH]; [apply substring_whole|].
  change (String c a +:+ b) with (String c (a +:+ b)). simpl. apply IH.
Qed.

Lemma JS_substring_after a b :
  JS.substring (a +:+ b) (Z.of_nat (String.length a)) = b.
Proof.
  unfold JS.substring.
  replace (Z.to_nat (Z.max 0 (Z.of_nat (String.length a))))
    with (String.length a) by lia.
  rewrite String_length_append.
  replace (String.length a + String.length b - String.length a)
    with (String.length b) by lia.
  apply substring_after.
Qed.

Lemma JS_substring_negative s : JS.substring s (-1) = s.
Proof. unfold JS.substring. simpl. rewrite Nat.sub_0_r. apply substring_whole. Qed.

Lemma truthy_Some s : s <> "" -> JS.truthy (Some s) = true.
Proof.
  intros Hne. simpl. apply negb_true_iff.
  by destruct (String.eqb_spec s "").
Qed.

(** X15: how [_npmPublish] names the registry in the argument that carries
    the auth token (the project being known and publishable).  Without
    [--registry] the argument is [--//registry.npmjs.org/:_authToken=<token>]
    and the environment is the process environment.  With a registry URL
    [<scheme>//<rest>] the argument is [--//<rest>:_authToken=<token>], the
    URL without its scheme, and the whole URL is put into
    [npm_config_registry].  With a URL that contains no [//] the whole URL
    is used in the argument.  [--force] is appended last when set. *)
Theorem npmPublish_auth_token_argument
    (w : World) (this : Parameters) (cfg : RushConfiguration)
    (name path token : string) (p : RushConfigurationProject) :
  Map_get (projectsByName cfg) name = Some p ->
  shouldPublish p = true ->
  _npmAuthToken this = Some token ->
  token <> "" ->
  let run := _npmPublish w this cfg name path in
  let publish := fun registry env =>
    gate w (_publish this) (npmToolFilename cfg)
      (["publish"; "--" +:+ registry +:+ ":_authToken=" +:+ token]
       ++ force_argument this)
      (Some path) (Some env) in
  (_registryUrl this = None ->
   trace run = publish "//registry.npmjs.org/" (process_env w))
  /\ (forall scheme rest,
         has_char slash scheme = false ->
         _registryUrl this = Some (scheme +:+ "//" +:+ rest) ->
         trace run
         = publish ("//" +:+ rest)
             (<["npm_config_registry" := scheme +:+ "//" +:+ rest]>
                (process_env w)))
  /\ (forall url,
         url <> "" -> JS.indexOf url "//" = (-1)%Z ->
         _registryUrl this = Some url ->
         trace run
         = publish url (<["npm_config_registry" := url]> (process_env w))).
Proof.
  intros Hp Hsp Htoken Hne run publish. subst run publish.
  rewrite (npmPublish_eq _ _ _ _ _ p Hp), Hsp, execCommand_trace.
  unfold npmPublish_args, npmPublish_env, npmPublish_registry, force_argument.
  rewrite Htoken, (truthy_Some token Hne).
  split; [|split].
  - intros ->. reflexivity.
  - intros scheme rest Hno ->.
    rewrite truthy_Some by by destruct scheme.
    unfold JS.str, JS.indexOf. rewrite (index_after_scheme _ _ Hno).
    rewrite JS_substring_after. reflexivity.
  - intros url Hurl Hindex ->.
    rewrite (truthy_Some url Hurl). unfold JS.str. rewrite Hindex.
    rewrite JS_substring_negative. reflexivity.
Qed.

Lemma npmPublish_auth_token_witness :
  let this :=
    {| _addCommitDetails := false; _apply := false; _includeAll := false;
       _npmAuthToken := Some "secret"; _publish := true;
       _regenerateChangelogs := false;
       _registryUrl := Some "https://private.example/";
       _targetBranch := None; _prereleaseName := None; _suffix := None;
       _force := true |} in
  executed
    (trace (_npmPublish Sample.w0 this Sample.configuration "pkgA" "/repo/a"))
  = [ExecuteCommand "npm"
       ["publish"; "--//private.example/:_authToken=secret"; "--force"]
       "/repo/a"
       (Some (<["npm_config_registry" := "https://private.example/"]>
                (process_env Sample.w0)))].
Proof.
  intros this.
  destruct (npmPublish_auth_token_argument Sample.w0 this Sample.configuration
              "pkgA" "/repo/a" "secret" Sample.pkgA eq_refl eq_refl eq_refl)
    as (_ & Hurl & _); [discriminate|].
  rewrite (Hurl "https:" "private.example/" eq_refl eq_refl).
  reflexivity.
Defined.

(** ** The file steps of the selective workflow *)

Lemma Forall_gate_no_file_step w sh command args wd env :
  Forall (fun e => is_file_step e = false) (gate w sh command args wd env).
Proof. apply Forall_gate_of; done. Qed.

(** X16: in a run of the selective workflow with at least one change, whose
    external calls return, the file steps are, in this order and each
    exactly once: the resolution of the change requests, the manifest update
    with the apply flag (also in a prerelease run, and also when the flag is
    off), and, unless a prerelease token has a value, the changelog update
    with the apply flag and the deletion of the change files. *)
Theorem selective_file_steps_in_order
    (w : World) (this : Parameters) (cfg : RushConfiguration)
    (tok : PrereleaseToken) :
  let changes := resolvedChanges w this cfg tok (projectsByName cfg) in
  all_succeed w ->
  Forall (resolvable cfg) changes ->
  changes <> [] ->
  List.filter is_file_step
    (trace (_publishChanges w this cfg tok (projectsByName cfg)))
  = [FindChangeRequests (path_join w (commonFolder cfg) "changes")
       (_addCommitDetails this) tok;
     UpdatePackages (_apply this)]
    ++ (if hasValue tok then []
        else [UpdateChangelogs (_apply this);
              DeleteAll (_apply this || JS.truthy (_targetBranch this))]).
Proof.
  intros changes Hok Hres Hne.
  rewrite (runs_trace _ _ _ (publishChanges_runs w this cfg tok Hok Hres)).
  fold changes. clearbody changes. unfold selective_trace.
  destruct changes as [|c cs]; [done|].
  assert (Hgate : forall sh command args wd env,
             List.filter is_file_step (gate w sh command args wd env) = []).
  { intros. apply filter_nil_of_Forall, Forall_gate_no_file_step. }
  assert (Hpub : List.filter is_file_step
                   (flat_map (publish_events w this cfg) (c :: cs)) = []).
  { apply filter_nil_of_Forall, Forall_flat_map. intros x.
    unfold publish_events. destruct (eligible cfg x); [|constructor].
    apply Forall_gate_no_file_step. }
  assert (Htag : List.filter is_file_step
                   (flat_map (tag_events w this cfg) (c :: cs)) = []).
  { apply filter_nil_of_Forall, Forall_flat_map. intros x.
    unfold tag_events. destruct (eligible cfg x); [|constructor].
    apply Forall_gate_no_file_step. }
  rewrite !List.filter_app, !Hgate, Hpub, Htag.
  by destruct (hasValue tok).
Qed.

Lemma selective_file_steps_witness :
  List.filter is_file_step
    (trace (_publishChanges Sample.w0 Sample.no_flags Sample.configuration
              {| prereleaseName := Some "beta"; suffix := None |}
              (projectsByName Sample.configuration)))
  = [FindChangeRequests "/repo/common/changes" false
       {| prereleaseName := Some "beta"; suffix := None |};
     UpdatePackages false].
Proof.
  rewrite (selective_file_steps_in_order Sample.w0 Sample.no_flags
             Sample.configuration
             {| prereleaseName := Some "beta"; suffix := None |}
             (sample_all_succeed _ _) sample_resolvable);
    [reflexivity | discriminate].
Defined.

(** ** The change records in the selective workflow *)

Lemma flat_map_ext_elem {A} (f g : A -> list Event) (l : list A) :
  (forall x, x ∈ l -> f x = g x) -> flat_map f l = flat_map g l.
Proof.
  induction l as [|x l IH]; intros Hfg; [done|].
  simpl. rewrite (Hfg x) by left. rewrite IH; [done|].
  intros y Hy. apply Hfg. by right.
Qed.

Lemma gitAddTags_runs w this cfg changes :
  all_succeed w -> Forall (resolvable cfg) changes ->
  runs (_gitAddTags w this cfg changes)
    (flat_map (tag_events w this cfg) changes) tt.
Proof.
  intros Hok Hres. unfold _gitAddTags. apply runs_for_of.
  intros x Hx. apply tagLoopBody_runs; [done|].
  by eapply Forall_forall in Hres.
Qed.

Lemma selective_trace_split w this cfg tok changes :
  changes <> [] ->
  selective_trace w this cfg tok changes
  = selective_before_publish w this cfg tok
      (flat_map (publish_events w this cfg) changes
       ++ flat_map (tag_events w this cfg) changes
       ++ selective_after_tags w this).
Proof.
  intros Hne. unfold selective_trace, selective_before_publish,
    selective_after_tags.
  destruct changes as [|c cs]; [done|].
  by destruct (hasValue tok).
Qed.

(** C2: in a run of the selective workflow whose external calls return and
    whose changes above [dependency] name a project, the events of the run
    are those before the publish loop, then the publish step of every change
    record in resolution order, then [_gitAddTags], which is the tag step of
    every change record in the same order, then the merge.  For every record
    processed, with project [p]: a record of type [dependency] produces no
    event in either step, so it is never published and never tagged; a
    record above [dependency] spawns the registry publish if and only if
    [--publish] is set and [p.shouldPublish] holds, and when
    [p.shouldPublish] does not hold its publish step produces no event at
    all, not even a log line; it spawns the git tag if and only if, in
    addition, the target branch is set and no registry URL is given.  Hence
    the publishes of the run are those of the records above [dependency]
    with [shouldPublish], when [--publish] is set, and its tags are the tags
    of the same records, when moreover the target branch is set and no
    registry URL is given. *)
Theorem selective_publishes_and_tags_records
    (w : World) (this : Parameters) (cfg : RushConfiguration)
    (tok : PrereleaseToken) :
  let changes := resolvedChanges w this cfg tok (projectsByName cfg) in
  let run := _publishChanges w this cfg tok (projectsByName cfg) in
  let publishStep := fun change =>
    trace (publishLoopBody w this cfg (projectsByName cfg) change) in
  let tagStep := fun change => trace (tagLoopBody w this cfg change) in
  let publishLoop := flat_map publishStep changes in
  let tagLoop := trace (_gitAddTags w this cfg changes) in
  all_succeed w ->
  Forall (resolvable cfg) changes ->
  (changes <> [] ->
   trace run
   = selective_before_publish w this cfg tok
       (publishLoop ++ tagLoop ++ selective_after_tags w this))
  /\ tagLoop = flat_map tagStep changes
  /\ executed publishLoop
     = (if _publish this
        then change_publish_command w this cfg
             <$> List.filter (eligible cfg) changes
        else [])
  /\ executed tagLoop
     = (if JS.truthy (_targetBranch this) && _publish this
           && negb (JS.truthy (_registryUrl this))
        then change_tag_command w <$> List.filter (eligible cfg) changes
        else [])
  /\ (forall change p,
         change ∈ changes ->
         Map_get (projectsByName cfg) (ci_packageName change) = Some p ->
         (changeType change = ChangeType.dependency ->
          publishStep change = [] /\ tagStep change = [])
         /\ (ChangeType.gt (changeType change) ChangeType.dependency = true ->
             executed (publishStep change)
             = (if _publish this && shouldPublish p
                then [ExecuteCommand (npmToolFilename cfg)
                        (npmPublish_args this) (projectFolder p)
                        (Some (npmPublish_env w this))]
                else [])
             /\ (executed (publishStep change) <> [] <->
                 _publish this = true /\ shouldPublish p = true)
             /\ (shouldPublish p = false -> publishStep change = [])
             /\ executed (tagStep change)
                = (if _publish this && shouldPublish p
                      && JS.truthy (_targetBranch this)
                      && negb (JS.truthy (_registryUrl this))
                   then [ExecuteCommand "git"
                           (gitTag_args w (ci_packageName change)
                              (newVersion change))
                           (process_cwd w) None]
                   else [])
             /\ (executed (tagStep change) <> [] <->
                 _publish this = true /\ shouldPublish p = true
                 /\ JS.truthy (_targetBranch this) = true
                 /\ JS.truthy (_registryUrl this) = false))).
Proof.
  intros changes run publishStep tagStep publishLoop tagLoop Hok Hres.
  assert (Hpub : publishLoop = flat_map (publish_events w this cfg) changes).
  { apply flat_map_ext_elem. intros x Hx.
    apply (runs_trace _ _ tt), publishLoopBody_runs; [done|].
    by eapply Forall_forall in Hres. }
  assert (Htags : tagLoop = flat_map (tag_events w this cfg) changes).
  { by apply (runs_trace _ _ tt), gitAddTags_runs. }
  assert (Htag : flat_map tagStep changes
                 = flat_map (tag_events w this cfg) changes).
  { apply flat_map_ext_elem. intros x Hx.
    apply (runs_trace _ _ tt), tagLoopBody_runs; [done|].
    by eapply Forall_forall in Hres. }
  split.
  { intros Hne. subst run.
    rewrite (runs_trace _ _ _ (publishChanges_runs w this cfg tok Hok Hres)).
    fold changes. rewrite Hpub, Htags. by apply selective_trace_split. }
  split; [by rewrite Htags, Htag|].
  split; [rewrite Hpub; apply executed_publish_events|].
  split; [rewrite Htags; apply executed_tag_events|].
  intros change p _ Hp.
  exact (change_published_and_tagged_iff w this cfg change p Hp).
Qed.

Lemma selective_publishes_and_tags_witness :
  let run :=
    _publishChanges Sample.w0 Sample.all_flags Sample.configuration
      Sample.no_token (projectsByName Sample.configuration) in
  let tagLoop :=
    trace (_gitAddTags Sample.w0 Sample.all_flags Sample.configuration
             [Sample.changeA; Sample.changeB]) in
  executed tagLoop = [change_tag_command Sample.w0 Sample.changeA]
  /\ trace run
     = selective_before_publish Sample.w0 Sample.all_flags
         Sample.configuration Sample.no_token
         (gate Sample.w0 true "npm"
            ["publish"; "--//registry.npmjs.org/:_authToken=secret"]
            (Some "/repo/a") (Some (process_env Sample.w0))
          ++ tagLoop ++ selective_after_tags Sample.w0 Sample.all_flags).
Proof.
  intros run tagLoop.
  destruct (selective_publishes_and_tags_records Sample.w0 Sample.all_flags
              Sample.configuration Sample.no_token (sample_all_succeed _ _)
              sample_resolvable)
    as (Htrace & _ & _ & Htag & _).
  split.
  - exact Htag.
  - subst run. rewrite Htrace; [reflexivity | discriminate].
Defined.
